(** * Log matching: key derivation and merge of HTCondor / WMArchive records

    Shallow embedding of [add_log_htc], [add_log_wma] and
    [merge_dicts_by_url] of [main.py], and the properties of the merge.

    Records are the JSON documents decoded from the search backend's
    response.  They are modelled as values (trees).  Python mutates the
    decoded objects in place: key derivation writes [EOSLogURL] into the
    record, and the fold of a group extends in place the lists and
    mappings of records it has read.  A decoded document shares no object
    between two records and no record is read again once the fold has
    passed it, so the value a function returns is the one computed below
    on trees. *)

From Stdlib Require Import List String Ascii ZArith QArith Bool Arith.
From Stdlib Require Import Permutation Lia.
Import ListNotations.

Local Open Scope string_scope.
Local Open Scope list_scope.
Local Open Scope nat_scope.

#[local] Set Warnings "-register-all".

(** ** Python values *)

Module Py.

(** A decoded JSON value.  The program never computes with numbers, it only
    compares and hashes them, so a (finite) float is represented by the
    rational number it denotes.  A Rocq [ascii] stands for one character of
    a Python string.  A [dict] keeps its insertion order: it is the list of
    its items, oldest first. *)
Inductive value : Type :=
| VNone
| VBool (b : bool)
| VInt (z : Z)
| VFloat (q : Q)
| VStr (s : string)
| VList (l : list value)
| VDict (d : list (value * value)).

Definition dict (A : Type) : Type := list (value * A).

(** The built-in exceptions the modelled functions can raise.  [KeyError]
    carries the key that was looked up; the interpreter's message text of
    the others is not modelled. *)
Inductive exn : Type :=
| KeyError (key : value)
| IndexError
| TypeError
| AttributeError
| ValueError.

Definition exn_class (e : exn) : string :=
  match e with
  | KeyError _ => "KeyError"
  | IndexError => "IndexError"
  | TypeError => "TypeError"
  | AttributeError => "AttributeError"
  | ValueError => "ValueError"
  end.

(** The objects an exception instance holds ([e.args], message text apart). *)
Definition exn_args (e : exn) : list value :=
  match e with
  | KeyError k => [k]
  | _ => []
  end.

Inductive result (A : Type) : Type :=
| Ok (a : A)
| Raise (e : exn).

Arguments Ok {A} a.
Arguments Raise {A} e.

Definition bind {A B : Type} (m : result A) (k : A -> result B) : result B :=
  match m with
  | Ok a => k a
  | Raise e => Raise e
  end.

Definition is_ok {A : Type} (m : result A) : bool :=
  match m with Ok _ => true | Raise _ => false end.

(** *** Equality and hashing of scalars *)

(** [True == 1 == 1.0] in Python: numbers compare by value. *)
Definition num_of (v : value) : option Q :=
  match v with
  | VBool b => Some (if b then 1%Q else 0%Q)
  | VInt z => Some (inject_Z z)
  | VFloat q => Some q
  | _ => None
  end.

(** [a == b] for hashable [a] or [b] (no list or dict is equal to a
    scalar, and the program compares no two containers). *)
Definition py_eqb (a b : value) : bool :=
  match a, b with
  | VNone, VNone => true
  | VStr s, VStr t => String.eqb s t
  | _, _ =>
      match num_of a, num_of b with
      | Some x, Some y => Qeq_bool x y
      | _, _ => false
      end
  end.

Definition hashable (v : value) : bool :=
  match v with
  | VList _ | VDict _ => false
  | _ => true
  end.

(** *** Dictionaries *)

Fixpoint dict_get {A : Type} (d : dict A) (k : value) : option A :=
  match d with
  | [] => None
  | (k0, v0) :: r => if py_eqb k0 k then Some v0 else dict_get r k
  end.

(** [d[k] = v]: an existing key keeps its place (and the stored key
    object), a new key goes last. *)
Fixpoint dict_set {A : Type} (d : dict A) (k : value) (v : A) : dict A :=
  match d with
  | [] => [(k, v)]
  | (k0, v0) :: r =>
      if py_eqb k0 k then (k0, v) :: r else (k0, v0) :: dict_set r k v
  end.

Definition dict_keys {A : Type} (d : dict A) : list value := map fst d.

(** [k in d] *)
Definition dict_has {A : Type} (d : dict A) (k : value) : bool :=
  existsb (fun k0 => py_eqb k0 k) (dict_keys d).

(** [v[k]] for a string literal [k]. *)
Definition getitem (v : value) (k : string) : result value :=
  match v with
  | VDict d =>
      match dict_get d (VStr k) with
      | Some x => Ok x
      | None => Raise (KeyError (VStr k))
      end
  | _ => Raise TypeError
  end.

(** [v[k] = x] for a string literal [k]. *)
Definition setitem (v : value) (k : string) (x : value) : result value :=
  match v with
  | VDict d => Ok (VDict (dict_set d (VStr k) x))
  | _ => Raise TypeError
  end.

(** [v.get(k, default)] *)
Definition get (v : value) (k : string) (default : value) : result value :=
  match v with
  | VDict d =>
      match dict_get d (VStr k) with
      | Some x => Ok x
      | None => Ok default
      end
  | _ => Raise AttributeError
  end.

(** [v.items()] *)
Definition items (v : value) : result (list (value * value)) :=
  match v with
  | VDict d => Ok d
  | _ => Raise AttributeError
  end.

(** One element of the argument of [dict.update] when that argument is a
    sequence: it must itself be an iterable of exactly two objects.
    Iterating a dict yields its keys, iterating a string its characters. *)
Definition seq2_pair (item : value) : result (value * value) :=
  match item with
  | VList [k; v] => Ok (k, v)
  | VList _ => Raise ValueError
  | VDict [(k1, _); (k2, _)] => Ok (k1, k2)
  | VDict _ => Raise ValueError
  | VStr (String c1 (String c2 EmptyString)) =>
      Ok (VStr (String c1 EmptyString), VStr (String c2 EmptyString))
  | VStr _ => Raise ValueError
  | _ => Raise TypeError
  end.

Fixpoint update_seq2 (d : dict value) (seq : list value) : result (dict value) :=
  match seq with
  | [] => Ok d
  | item :: rest =>
      bind (seq2_pair item) (fun kv =>
        if hashable (fst kv)
        then update_seq2 (dict_set d (fst kv) (snd kv)) rest
        else Raise TypeError)
  end.

Definition update_dict (d other : dict value) : dict value :=
  fold_left (fun acc kv => dict_set acc (fst kv) (snd kv)) other d.

Definition chars (s : string) : list value :=
  map (fun c => VStr (String c EmptyString)) (list_ascii_of_string s).

(** [d.update(other)]: a dict is merged key by key, any other iterable is
    read as a sequence of pairs, a non-iterable is refused. *)
Definition update (d : dict value) (other : value) : result (dict value) :=
  match other with
  | VDict o => Ok (update_dict d o)
  | VList seq => update_seq2 d seq
  | VStr s => update_seq2 d (chars s)
  | _ => Raise TypeError
  end.

(** *** Strings *)

(** [a + b] with [a] a string. *)
Definition str_add (a b : value) : result value :=
  match a, b with
  | VStr s, VStr t => Ok (VStr (s ++ t))
  | _, _ => Raise TypeError
  end.

(** [s.split(sep)] for a one-character separator: every occurrence of
    [sep] ends a field, so adjacent separators give empty fields. *)
Fixpoint split_on (sep : ascii) (s : string) : list string :=
  match s with
  | EmptyString => [EmptyString]
  | String c r =>
      if Ascii.eqb c sep then EmptyString :: split_on sep r
      else match split_on sep r with
           | h :: t => String c h :: t
           | [] => [String c EmptyString]
           end
  end.

(** [v.split(" ")] *)
Definition split_space (v : value) : result (list string) :=
  match v with
  | VStr s => Ok (split_on " "%char s)
  | _ => Raise AttributeError
  end.

(** [l[i]] on a list of strings *)
Definition index (l : list string) (i : nat) : result value :=
  match nth_error l i with
  | Some s => Ok (VStr s)
  | None => Raise IndexError
  end.

(** [isinstance(x, (str, int, float))]; [bool] is a subclass of [int]. *)
Definition is_primitive (x : value) : bool :=
  match x with
  | VStr _ | VInt _ | VFloat _ | VBool _ => true
  | _ => false
  end.

End Py.

Export Py.

Declare Scope py_scope.
Notation "x <- m ;; k" := (bind m (fun x => k))
  (at level 61, m at next level, right associativity) : py_scope.
Local Open Scope py_scope.

(** ** Key derivation *)

Definition url_prefix : string :=
  "https://eoscmsweb.cern.ch/eos/cms/store/logs/prod/recent/PRODUCTION".

Definition url_suffix : string := "-log.tar.gz".

(** The body of the loop of [add_log_htc] for one [entry]: the value of
    [entry["_source"]] once [EOSLogURL] is written.  Operands are evaluated
    left to right, each [+] as soon as its right operand is known. *)
Definition htc_entry (entry : value) : result value :=
  source <- getitem entry "_source" ;;
  data <- getitem source "data" ;;
  a <- getitem data "Args" ;;
  args <- split_space a ;;
  name <- getitem data "WMAgent_SubTaskName" ;;
  u1 <- str_add (VStr url_prefix) name ;;
  u2 <- str_add u1 (VStr "/") ;;
  schedd <- getitem data "ScheddName" ;;
  u3 <- str_add u2 schedd ;;
  u4 <- str_add u3 (VStr "-") ;;
  a1 <- index args 1 ;;
  u5 <- str_add u4 a1 ;;
  u6 <- str_add u5 (VStr "-") ;;
  a2 <- index args 2 ;;
  u7 <- str_add u6 a2 ;;
  u8 <- str_add u7 (VStr url_suffix) ;;
  data' <- setitem data "EOSLogURL" u8 ;;
  setitem source "data" data'.

Fixpoint add_log_htc_loop (data result : list value) : Py.result (list value) :=
  match data with
  | [] => Ok result
  | entry :: rest =>
      source <- htc_entry entry ;;
      add_log_htc_loop rest (result ++ [source])
  end.

Definition add_log_htc (data : list value) : result (list value) :=
  add_log_htc_loop data [].

(** The body of the loop of [add_log_wma] for one [entry]. *)
Definition wma_entry (entry : value) : result value :=
  source <- getitem entry "_source" ;;
  data <- getitem source "data" ;;
  url <- get data "EOSLogURL" (VStr "") ;;
  if py_eqb url (VStr "") then
    task <- getitem data "task" ;;
    u1 <- str_add (VStr url_prefix) task ;;
    u2 <- str_add u1 (VStr "/") ;;
    meta <- getitem data "meta_data" ;;
    host <- getitem meta "host" ;;
    u3 <- str_add u2 host ;;
    u4 <- str_add u3 (VStr "-") ;;
    meta' <- getitem data "meta_data" ;;
    fwjr <- getitem meta' "fwjr_id" ;;
    u5 <- str_add u4 fwjr ;;
    u6 <- str_add u5 (VStr url_suffix) ;;
    data' <- setitem data "EOSLogURL" u6 ;;
    setitem source "data" data'
  else Ok source.

Fixpoint add_log_wma_loop (data result : list value) : Py.result (list value) :=
  match data with
  | [] => Ok result
  | entry :: rest =>
      source <- wma_entry entry ;;
      add_log_wma_loop rest (result ++ [source])
  end.

Definition add_log_wma (data : list value) : result (list value) :=
  add_log_wma_loop data [].

(** ** Merging by [EOSLogURL] *)

(** [item['data'].get('EOSLogURL')] *)
Definition item_url (item : value) : result value :=
  data <- getitem item "data" ;;
  get data "EOSLogURL" VNone.

(** [url_groups[url].append(item)] on the [defaultdict(list)]: a new key
    starts a group at the end, a known key gets [item] at the end of its
    group. *)
Fixpoint append_group (url_groups : dict (list value)) (url item : value)
  : dict (list value) :=
  match url_groups with
  | [] => [(url, [item])]
  | (k, group) :: r =>
      if py_eqb k url then (k, group ++ [item]) :: r
      else (k, group) :: append_group r url item
  end.

(** The grouping loop; a list or a dict as [url] cannot be hashed. *)
Fixpoint group_loop (dict_list : list value) (url_groups : dict (list value))
  : result (dict (list value)) :=
  match dict_list with
  | [] => Ok url_groups
  | item :: rest =>
      url <- item_url item ;;
      if hashable url
      then group_loop rest (append_group url_groups url item)
      else Raise TypeError
  end.

Definition group_by_url (dict_list : list value) : result (dict (list value)) :=
  group_loop dict_list [].

Section Merge.

(** [list(set(l))] for a list [l] of strings and numbers.  The order in
    which a set is iterated depends on the hash values and is fixed
    within one run of the interpreter: it is a parameter here. *)
Variable list_of_set : list value -> list value.

(** The rule applied when [key] is already in the merged record. *)
Definition merge_value (existing value : Py.value) : result Py.value :=
  match existing with
  | VList l =>
      let l' := l ++ (match value with VList vl => vl | _ => [value] end) in
      Ok (VList (if forallb is_primitive l' then list_of_set l' else l'))
  | VDict e =>
      e' <- update e value ;;
      Ok (VDict e')
  | _ => Ok value
  end.

(** One iteration of [for key, value in d['data'].items()]. *)
Definition merge_field (merged : dict value) (key value : Py.value)
  : result (dict Py.value) :=
  match dict_get merged key with
  | Some existing =>
      new <- merge_value existing value ;;
      Ok (dict_set merged key new)
  | None => Ok (dict_set merged key value)
  end.

Fixpoint merge_items (merged : dict value) (its : list (value * value))
  : result (dict value) :=
  match its with
  | [] => Ok merged
  | (key, value) :: rest =>
      merged' <- merge_field merged key value ;;
      merge_items merged' rest
  end.

(** [for d in group: ...] *)
Fixpoint merge_group (merged : dict value) (group : list value)
  : result (dict value) :=
  match group with
  | [] => Ok merged
  | d :: rest =>
      data <- getitem d "data" ;;
      its <- items data ;;
      merged' <- merge_items merged its ;;
      merge_group merged' rest
  end.

Definition wrap (merged : dict value) : value :=
  VDict [(VStr "data", VDict merged)].

(** [for url, group in url_groups.items(): ...] *)
Fixpoint process_groups (url_groups : dict (list value))
  (merged_dicts single_entries : list value)
  : result (list value * list value) :=
  match url_groups with
  | [] => Ok (merged_dicts, single_entries)
  | (url, group) :: rest =>
      if 1 <? List.length group then
        merged <- merge_group [] group ;;
        process_groups rest (merged_dicts ++ [wrap merged]) single_entries
      else
        match group with
        | g0 :: _ => process_groups rest merged_dicts (single_entries ++ [g0])
        | [] => Raise IndexError
        end
  end.

Definition merge_dicts_by_url (dict_list : list value)
  : result (list value * list value) :=
  url_groups <- group_by_url dict_list ;;
  process_groups url_groups [] [].

End Merge.

(** The elements of [l] without those equal to an earlier one, in the
    order of [l]: the keys in first-seen order, and one of the orders in
    which the interpreter may give [list(set(l))]. *)
Fixpoint first_occ (l : list value) : list value :=
  match l with
  | [] => []
  | x :: r => x :: filter (fun y => negb (py_eqb x y)) (first_occ r)
  end.

(** ** Notions used in the statements, and example records *)

(** The key a record is grouped under ([None] for a record without
    [EOSLogURL]); only meaningful where [item_url] returns. *)
Definition url_of (item : value) : value :=
  match item_url item with
  | Ok u => u
  | Raise _ => VNone
  end.

(** A record the grouping loop accepts. *)
Definition groupable (item : value) : bool :=
  match item_url item with
  | Ok u => hashable u
  | Raise _ => false
  end.

(** The records of [l] grouped under key [k], in input order. *)
Definition members (l : list value) (k : value) : list value :=
  filter (fun r => py_eqb k (url_of r)) l.

(** The groups as the description of the merger has them: one per distinct
    key, keys in first-occurrence order, each group in input order. *)
Definition groups_spec (l : list value) : dict (list value) :=
  map (fun k => (k, members l k)) (first_occ (map url_of l)).

Definition big (g : value * list value) : bool := 1 <? List.length (snd g).
Definition small (g : value * list value) : bool := negb (big g).

(** Keys met for the first time are pairwise different. *)
Definition distinct_keys (ks : list value) : Prop :=
  ForallOrdPairs (fun a b => py_eqb a b = false) ks.

(** A record whose [data] mapping has no [EOSLogURL] field. *)
Definition keyless (item : value) : bool :=
  match getitem item "data" with
  | Ok (VDict d) =>
      match dict_get d (VStr "EOSLogURL") with
      | None => true
      | Some _ => false
      end
  | _ => false
  end.

(** The two records of the example: they share the key [url]; the first
    has [f = ["a"]], the second [f = ["a", "b"]]. *)
Definition seq_r1 (url : string) : value :=
  VDict [(VStr "data", VDict [(VStr "f", VList [VStr "a"]);
                              (VStr "EOSLogURL", VStr url)])].

Definition seq_r2 (url : string) : value :=
  VDict [(VStr "data", VDict [(VStr "f", VList [VStr "a"; VStr "b"]);
                              (VStr "EOSLogURL", VStr url)])].

(** A failure that names the conflict: an exception of class
    [MergeConflictError] holding the key, the field name and the two
    values. *)
Definition reports_conflict {A : Type} (res : result A)
  (url field existing incoming : value) : Prop :=
  exists e, res = Raise e /\
            exn_class e = "MergeConflictError" /\
            incl [url; field; existing; incoming] (exn_args e).

(** Two records with the same key whose field [meta] is a number in one
    and a mapping in the other. *)
Definition conflict_scalar : value :=
  VDict [(VStr "data", VDict [(VStr "EOSLogURL", VStr "u");
                              (VStr "meta", VInt 1)])].

Definition conflict_mapping : value :=
  VDict [(VStr "data", VDict [(VStr "EOSLogURL", VStr "u");
                              (VStr "meta", VDict [(VStr "x", VInt 1)])])].

Definition non_iterable (v : value) : bool :=
  match v with
  | VNone | VBool _ | VInt _ | VFloat _ => true
  | _ => false
  end.

Definition scalar_or_none (v : value) : bool :=
  match v with
  | VList _ | VDict _ => false
  | _ => true
  end.

(** The HTC key from the name of the sub-task, the name of the schedd and
    two fields of [Args]. *)
Definition htc_key (name schedd a1 a2 : string) : string :=
  url_prefix ++ name ++ "/" ++ schedd ++ "-" ++ a1 ++ "-" ++ a2 ++ url_suffix.

Definition wma_key (task host fwjr_id : string) : string :=
  url_prefix ++ task ++ "/" ++ host ++ "-" ++ fwjr_id ++ url_suffix.

(** The record of the end-to-end example. *)
Definition htc_data (args : string) : dict value :=
  [(VStr "WMAgent_SubTaskName", VStr "/Task1");
   (VStr "ScheddName", VStr "sched1");
   (VStr "Args", VStr args)].

Definition htc_source (args : string) : dict value :=
  [(VStr "data", VDict (htc_data args))].

Definition htc_example (args : string) : value :=
  VDict [(VStr "_source", VDict (htc_source args))].

(** The tokens of a whitespace-delimited string, as the description of
    the HTC key has them: the maximal runs of characters other than
    space, tab, line feed, vertical tab, form feed and carriage return. *)
Module Described.

Definition is_space (c : ascii) : bool :=
  match nat_of_ascii c with
  | 32 | 9 | 10 | 11 | 12 | 13 => true
  | _ => false
  end.

Fixpoint cut (s : string) : list string :=
  match s with
  | EmptyString => [EmptyString]
  | String c r =>
      if is_space c then EmptyString :: cut r
      else match cut r with
           | h :: t => String c h :: t
           | [] => [String c EmptyString]
           end
  end.

Definition tokens (s : string) : list string :=
  filter (fun t => negb (String.eqb t "")) (cut s).

Definition htc_key_described (name schedd args : string) : string :=
  htc_key name schedd (nth 1 (tokens args) "") (nth 2 (tokens args) "").

End Described.

(** A failure that names the missing field: an exception of class
    [MissingFieldError] holding the origin, the record and the field. *)
Definition reports_missing_field {A : Type} (res : result A)
  (origin record field : value) : Prop :=
  exists e, res = Raise e /\
            exn_class e = "MissingFieldError" /\
            incl [origin; record; field] (exn_args e).

(** An HTC record without [Args] and a WMA record without [task]. *)
Definition htc_no_args : value :=
  VDict [(VStr "_source",
          VDict [(VStr "data",
                  VDict [(VStr "WMAgent_SubTaskName", VStr "/Task1");
                         (VStr "ScheddName", VStr "sched1")])])].

Definition wma_no_task : value :=
  VDict [(VStr "_source",
          VDict [(VStr "data",
                  VDict [(VStr "meta_data",
                          VDict [(VStr "host", VStr "sched1");
                                 (VStr "fwjr_id", VStr "a1-a2")])])])].

(** Two records with the key "u", the first with a second top-level field,
    and between them a record with the key "v". *)
Definition rec_a : value :=
  VDict [(VStr "data", VDict [(VStr "EOSLogURL", VStr "u"); (VStr "x", VInt 1)]);
         (VStr "metadata", VDict [(VStr "kind", VStr "htc")])].

Definition rec_b : value :=
  VDict [(VStr "data", VDict [(VStr "EOSLogURL", VStr "u"); (VStr "y", VInt 2)])].

Definition rec_c : value :=
  VDict [(VStr "data", VDict [(VStr "EOSLogURL", VStr "v")])].

Definition batch : list value := [rec_a; rec_c; rec_b].

Definition batch_merged : list value :=
  [wrap [(VStr "EOSLogURL", VStr "u"); (VStr "x", VInt 1); (VStr "y", VInt 2)]].

Definition batch_single : list value := [rec_c].

(** Two records without [EOSLogURL]. *)
Definition rec_k1 : value := VDict [(VStr "data", VDict [(VStr "x", VInt 1)])].
Definition rec_k2 : value := VDict [(VStr "data", VDict [(VStr "y", VInt 2)])].

(** A WMA record that brings its [EOSLogURL] and one that does not. *)
Definition wma_with_url : value :=
  VDict [(VStr "_source",
          VDict [(VStr "data",
                  VDict [(VStr "EOSLogURL", VStr "root://eoscms/log.tar.gz");
                         (VStr "task", VStr "/Task1")])])].

Definition wma_meta : dict value :=
  [(VStr "host", VStr "sched1"); (VStr "fwjr_id", VStr "a1-a2")].

Definition wma_data : dict value :=
  [(VStr "task", VStr "/Task1"); (VStr "meta_data", VDict wma_meta)].

Definition wma_source : dict value := [(VStr "data", VDict wma_data)].

Definition wma_example : value := VDict [(VStr "_source", VDict wma_source)].

(** ** Notions used in the further properties *)

(** [value if isinstance(value, list) else [value]] *)
Definition flatten (v : value) : list value :=
  match v with
  | VList vl => vl
  | _ => [v]
  end.

(** The items of [d['data']], and those of all records of a group in the
    order in which the fold meets them. *)
Definition data_items (d : value) : dict value :=
  match getitem d "data" with
  | Ok (VDict its) => its
  | _ => []
  end.

Definition all_items (group : list value) : dict value :=
  flat_map data_items group.

(** The values bound to [field] in a sequence of items, in order. *)
Definition values_of (field : value) (its : dict value) : list value :=
  map snd (filter (fun kv => py_eqb (fst kv) field) its).

(** The merge rule applied along the values of one field: the first
    value is taken as it is, each later one is merged into what is
    there. *)
Fixpoint fold_field (list_of_set : list value -> list value)
  (acc : option value) (vs : list value) : result (option value) :=
  match vs with
  | [] => Ok acc
  | v :: rest =>
      match acc with
      | None => fold_field list_of_set (Some v) rest
      | Some existing =>
          new <- merge_value list_of_set existing v ;;
          fold_field list_of_set (Some new) rest
      end
  end.

(** A record as the decoder gives it: no two fields of its [data] are
    equal. *)
Definition well_formed (r : value) : Prop :=
  distinct_keys (dict_keys (data_items r)).

Definition is_string (v : value) : bool :=
  match v with
  | VStr _ => true
  | _ => false
  end.

(** ** The run of the script, from the two responses on *)

(** [for entry in v]: a list gives its elements, a mapping its keys, a
    string its characters; nothing else can be iterated. *)
Definition iterate (v : value) : result (list value) :=
  match v with
  | VList l => Ok l
  | VDict d => Ok (dict_keys d)
  | VStr s => Ok (chars s)
  | _ => Raise TypeError
  end.

(** How the run ends when nothing is raised: by [exit(message)], or after
    the merge with the two lists that are logged and counted. *)
Inductive outcome : Type :=
| Exited (message : string)
| Finished (merged_dicts single_entries : list value).

(** The statements of the script after the two calls of [fetch_data],
    whose results are [wma] and [htc].  Logging is left out: it changes
    nothing, and [json.dumps] accepts every record made of decoded
    values. *)
Definition run (list_of_set : list value -> list value) (wma htc : value)
  : result outcome :=
  wma_total <- getitem wma "total" ;;
  nqueried_wma <- getitem wma_total "value" ;;
  htc_total <- getitem htc "total" ;;
  nqueried_htc <- getitem htc_total "value" ;;
  if py_eqb nqueried_wma (VInt 0) then Ok (Exited "WMAgent: No data available!")
  else if py_eqb nqueried_htc (VInt 0) then Ok (Exited "HTCondor: No data available!")
  else
    wma_hits <- getitem wma "hits" ;;
    wma_entries <- iterate wma_hits ;;
    wma_with_logs <- add_log_wma wma_entries ;;
    htc_hits <- getitem htc "hits" ;;
    htc_entries <- iterate htc_hits ;;
    htc_with_logs <- add_log_htc htc_entries ;;
    out <- merge_dicts_by_url list_of_set (htc_with_logs ++ wma_with_logs) ;;
    Ok (Finished (fst out) (snd out)).

(** The entries of ["hits"] of a response, as the loops of derivation
    meet them. *)
Definition hits_of (response : value) : result (list value) :=
  hits <- getitem response "hits" ;;
  iterate hits.

(** ** The head of a query *)

Definition hex_digit (n : nat) : ascii :=
  ascii_of_nat (if n <? 10 then 48 + n else 87 + n).

(** One character of a string in the output of [json.dumps]: a quote and
    a backslash are escaped, the control characters backspace, form feed,
    line feed, carriage return and tab have a short escape, the other
    characters from space to tilde stand for themselves, every other
    character is written as a backslash, "u" and four hexadecimal digits
    (two of them for the characters modelled here). *)
Definition escape_char (c : ascii) : string :=
  let n := nat_of_ascii c in
  let esc (x : ascii) := String "092" (String x EmptyString) in
  if n =? 34 then esc "034"%char
  else if n =? 92 then esc "092"%char
  else if n =? 8 then esc "b"%char
  else if n =? 12 then esc "f"%char
  else if n =? 10 then esc "n"%char
  else if n =? 13 then esc "r"%char
  else if n =? 9 then esc "t"%char
  else if (32 <=? n) && (n <=? 126) then String c EmptyString
  else String "092" (String "u" (String "0" (String "0"
         (String (hex_digit (n / 16)) (String (hex_digit (n mod 16)) EmptyString))))).

Fixpoint escape (s : string) : string :=
  match s with
  | EmptyString => EmptyString
  | String c r => escape_char c ++ escape r
  end.

(** A string between quotes, escaped or (for the fixed names) as it is. *)
Definition json_string (s : string) : string :=
  String "034" (escape s ++ String "034" EmptyString).

Definition quoted (s : string) : string :=
  String "034" (s ++ String "034" EmptyString).

(** [create_query_head], for a configuration whose ["index"] is the string
    [index], as [parse_config_file] makes them: [json.dumps] of the
    mapping with its default separators. *)
Definition create_query_head (index : string) : string :=
  "{" ++ quoted "search_type" ++ ": " ++ quoted "query_then_fetch" ++ ", " ++
  quoted "ignore_unavailable" ++ ": true, " ++
  quoted "index" ++ ": [" ++ json_string index ++ "]}".

(** Reading back an escaped string up to its closing quote, and what
    follows it. *)
Definition unhex (c : ascii) : option nat :=
  let n := nat_of_ascii c in
  if (48 <=? n) && (n <=? 57) then Some (n - 48)
  else if (97 <=? n) && (n <=? 102) then Some (n - 87)
  else None.

Fixpoint unescape (s : string) : option (string * string) :=
  match s with
  | EmptyString => None
  | String c r =>
      if Ascii.eqb c "034"%char then Some (EmptyString, r)
      else if Ascii.eqb c "092"%char then
        match r with
        | String "u" (String "0" (String "0" (String h (String l r')))) =>
            match unhex h, unhex l, unescape r' with
            | Some a, Some b, Some (t, rest) =>
                Some (String (ascii_of_nat (16 * a + b)) t, rest)
            | _, _, _ => None
            end
        | String x r' =>
            let plain (y : ascii) :=
              match unescape r' with
              | Some (t, rest) => Some (String y t, rest)
              | None => None
              end in
            if Ascii.eqb x "034"%char then plain "034"%char
            else if Ascii.eqb x "092"%char then plain "092"%char
            else if Ascii.eqb x "b"%char then plain "008"%char
            else if Ascii.eqb x "f"%char then plain "012"%char
            else if Ascii.eqb x "n"%char then plain "010"%char
            else if Ascii.eqb x "r"%char then plain "013"%char
            else if Ascii.eqb x "t"%char then plain "009"%char
            else None
        | EmptyString => None
        end
      else
        match unescape r with
        | Some (t, rest) => Some (String c t, rest)
        | None => None
        end
  end.

(** [sep.join(l)] *)
Fixpoint join (sep : ascii) (l : list string) : string :=
  match l with
  | [] => EmptyString
  | [s] => s
  | s :: r => s ++ String sep (join sep r)
  end.

Fixpoint count_char (c : ascii) (s : string) : nat :=
  match s with
  | EmptyString => 0
  | String x r => (if Ascii.eqb x c then 1 else 0) + count_char c r
  end.

Fixpoint string_forall (p : ascii -> bool) (s : string) : bool :=
  match s with
  | EmptyString => true
  | String c r => p c && string_forall p r
  end.

(** The characters from space to tilde. *)
Definition printable (c : ascii) : bool :=
  (32 <=? nat_of_ascii c) && (nat_of_ascii c <=? 126).

(** ** Example records for the further properties *)

Definition merged_ab : dict value :=
  [(VStr "EOSLogURL", VStr "u"); (VStr "x", VInt 1); (VStr "y", VInt 2)].

(** Two records with the key "u" whose [f] is a sequence, the first with
    a [None] in it. *)
Definition seq_n1 : value :=
  VDict [(VStr "data", VDict [(VStr "EOSLogURL", VStr "u");
                              (VStr "f", VList [VNone; VStr "a"])])].

Definition seq_n2 : value :=
  VDict [(VStr "data", VDict [(VStr "EOSLogURL", VStr "u");
                              (VStr "f", VList [VStr "a"])])].

(** An HTC record whose [Args] has two fields only. *)
Definition htc_short : value := htc_example "x a1".

(** Two responses with one hit each, and one without data. *)
Definition wma_response : value :=
  VDict [(VStr "total", VDict [(VStr "value", VInt 1)]);
         (VStr "hits", VList [wma_example])].

Definition htc_response : value :=
  VDict [(VStr "total", VDict [(VStr "value", VInt 1)]);
         (VStr "hits", VList [htc_example "x a1 a2 x"])].

Definition empty_response : value :=
  VDict [(VStr "total", VDict [(VStr "value", VInt 0)]);
         (VStr "hits", VList [])].

(** ** The WMA key as described *)






(** * Properties *)

(** ** Equality of keys *)

Lemma py_eqb_sym (a b : value) : py_eqb a b = py_eqb b a.
Proof.
  assert (Q : forall x y, Qeq_bool x y = Qeq_bool y x).
  { intros x y. destruct (Qeq_bool x y) eqn:E1, (Qeq_bool y x) eqn:E2; auto.
    - apply Qeq_bool_iff in E1. symmetry in E1. apply Qeq_bool_iff in E1. congruence.
    - apply Qeq_bool_iff in E2. symmetry in E2. apply Qeq_bool_iff in E2. congruence. }
  destruct a, b; simpl; auto using String.eqb_sym.
Qed.

Lemma py_eqb_trans (a b c : value) :
  py_eqb a b = true -> py_eqb b c = true -> py_eqb a c = true.
Proof.
  assert (Q : forall x y z, Qeq_bool x y = true -> Qeq_bool y z = true -> Qeq_bool x z = true).
  { intros x y z. apply Qeq_bool_trans. }
  destruct a, b; simpl; try discriminate; destruct c; simpl; try discriminate; eauto.
  intros H1 H2. apply String.eqb_eq in H1, H2. apply String.eqb_eq. congruence.
Qed.

Lemma py_eqb_refl (a : value) : hashable a = true -> py_eqb a a = true.
Proof.
  destruct a; simpl; try discriminate; intros _; auto using String.eqb_refl;
    apply Qeq_bool_iff; reflexivity.
Qed.

Lemma py_eqb_str (a : value) (s : string) :
  py_eqb a (VStr s) = true <-> a = VStr s.
Proof.
  destruct a; simpl; split; try discriminate; intros H.
  - apply String.eqb_eq in H. congruence.
  - inversion H. apply String.eqb_refl.
Qed.

Lemma py_eqb_compat_l (a b c : value) :
  py_eqb a b = true -> py_eqb a c = py_eqb b c.
Proof.
  intros H. destruct (py_eqb b c) eqn:E.
  - eapply py_eqb_trans; eauto.
  - destruct (py_eqb a c) eqn:E'; auto.
    rewrite py_eqb_sym in H. rewrite <- E. symmetry. eapply py_eqb_trans; eauto.
Qed.

Lemma py_eqb_compat_r (a b c : value) :
  py_eqb a b = true -> py_eqb c a = py_eqb c b.
Proof.
  intros H. rewrite (py_eqb_sym c a), (py_eqb_sym c b). now apply py_eqb_compat_l.
Qed.

(** ** Grouping *)

Lemma groupable_hashable (item : value) :
  groupable item = true -> hashable (url_of item) = true.
Proof. unfold groupable, url_of. destruct (item_url item); auto; discriminate. Qed.

Lemma item_url_ok (item u : value) :
  item_url item = Ok u -> url_of item = u /\ groupable item = hashable u.
Proof. unfold url_of, groupable. intros ->. auto. Qed.

Lemma group_loop_ok (l : list value) :
  forall acc gs,
    group_loop l acc = Ok gs ->
    forallb groupable l = true /\
    gs = fold_left (fun g it => append_group g (url_of it) it) l acc.
Proof.
  induction l as [|item rest IH]; simpl; intros acc gs H.
  - inversion H; auto.
  - destruct (item_url item) as [u|e] eqn:E; simpl in H; try discriminate.
    destruct (item_url_ok _ _ E) as [-> ->].
    destruct (hashable u); try discriminate.
    apply IH in H. destruct H as [H1 H2]. auto.
Qed.

Lemma group_loop_total (l : list value) :
  forall acc,
    forallb groupable l = true ->
    group_loop l acc = Ok (fold_left (fun g it => append_group g (url_of it) it) l acc).
Proof.
  induction l as [|item rest IH]; simpl; intros acc H; auto.
  apply andb_true_iff in H. destruct H as [H1 H2].
  destruct (item_url item) as [u|e] eqn:E; simpl.
  - destruct (item_url_ok _ _ E) as [Hu Hg]. rewrite Hu. rewrite Hg in H1.
    rewrite H1. now apply IH.
  - unfold groupable in H1. rewrite E in H1. discriminate.
Qed.

Lemma first_occ_incl (us : list value) (k : value) :
  In k (first_occ us) -> In k us.
Proof.
  revert k. induction us as [|u r IH]; simpl; intros k H; auto.
  destruct H as [H|H]; auto. apply filter_In in H. right. apply IH, H.
Qed.

Lemma first_occ_distinct (us : list value) : distinct_keys (first_occ us).
Proof.
  induction us as [|u r IH]; simpl.
  - constructor.
  - constructor.
    + apply Forall_forall. intros y Hy. apply filter_In in Hy.
      destruct Hy as [_ Hy]. now apply negb_true_iff in Hy.
    + clear -IH. induction IH as [|a l Ha Hl IHl]; simpl.
      * constructor.
      * destruct (negb (py_eqb u a)); auto.
        constructor; auto.
        apply Forall_forall. intros y Hy. apply filter_In in Hy.
        rewrite Forall_forall in Ha. apply Ha, Hy.
Qed.

Lemma first_occ_snoc (us : list value) (u : value) :
  first_occ (us ++ [u]) =
  if existsb (fun k => py_eqb k u) us then first_occ us else first_occ us ++ [u].
Proof.
  induction us as [|x r IH]; simpl; auto.
  rewrite IH. destruct (existsb (fun k => py_eqb k u) r) eqn:E.
  - now rewrite orb_true_r.
  - rewrite orb_false_r, filter_app. simpl.
    destruct (py_eqb x u); simpl; auto. now rewrite app_nil_r.
Qed.

Lemma first_occ_seen (us : list value) (u : value) :
  existsb (fun k => py_eqb k u) (first_occ us) = existsb (fun k => py_eqb k u) us.
Proof.
  induction us as [|x r IH]; simpl; auto.
  destruct (py_eqb x u) eqn:E; simpl; auto.
  rewrite <- IH. clear IH.
  induction (first_occ r) as [|y l IHl]; simpl; auto.
  destruct (py_eqb x y) eqn:Exy; simpl.
  - rewrite <- (py_eqb_compat_l _ _ u Exy), E. simpl. auto.
  - now rewrite IHl.
Qed.

Lemma existsb_false_forall {A : Type} (f : A -> bool) (l : list A) :
  existsb f l = false -> forall x, In x l -> f x = false.
Proof.
  intros H x Hx. destruct (f x) eqn:E; auto.
  rewrite <- H. symmetry. apply existsb_exists. eauto.
Qed.

Lemma append_group_map (F : value -> list value) (u x : value) (ks : list value) :
  distinct_keys ks ->
  append_group (map (fun k => (k, F k)) ks) u x =
  if existsb (fun k => py_eqb k u) ks
  then map (fun k => (k, F k ++ (if py_eqb k u then [x] else []))) ks
  else map (fun k => (k, F k)) ks ++ [(u, [x])].
Proof.
  induction 1 as [|k r Hk Hr IH]; simpl; auto.
  destruct (py_eqb k u) eqn:E; simpl.
  - f_equal. apply map_ext_in. intros k' Hk'.
    rewrite Forall_forall in Hk. specialize (Hk _ Hk').
    rewrite (py_eqb_compat_l _ _ k' E), py_eqb_sym in Hk.
    now rewrite Hk, app_nil_r.
  - rewrite IH, app_nil_r. now destruct (existsb _ r).
Qed.

Lemma members_snoc (l : list value) (x k : value) :
  members (l ++ [x]) k =
  members l k ++ (if py_eqb k (url_of x) then [x] else []).
Proof. unfold members. now rewrite filter_app. Qed.

Lemma members_unseen (l : list value) (u : value) :
  existsb (fun k => py_eqb k u) (map url_of l) = false -> members l u = [].
Proof.
  intros H. unfold members.
  induction l as [|r l IH]; simpl in *; auto.
  apply orb_false_iff in H. destruct H as [H1 H2].
  rewrite py_eqb_sym, H1. auto.
Qed.

Lemma groups_spec_snoc (l : list value) (x : value) :
  hashable (url_of x) = true ->
  groups_spec (l ++ [x]) = append_group (groups_spec l) (url_of x) x.
Proof.
  intros Hx. unfold groups_spec.
  rewrite append_group_map by apply first_occ_distinct.
  rewrite first_occ_seen, map_app. simpl. rewrite first_occ_snoc.
  destruct (existsb (fun k => py_eqb k (url_of x)) (map url_of l)) eqn:E.
  - apply map_ext. intros k. now rewrite members_snoc.
  - rewrite map_app. simpl.
    rewrite members_snoc, (members_unseen _ _ E), (py_eqb_refl _ Hx). simpl.
    f_equal. apply map_ext_in. intros k Hk. rewrite members_snoc.
    rewrite <- first_occ_seen in E.
    rewrite (existsb_false_forall _ _ E k Hk). now rewrite app_nil_r.
Qed.

(** The grouping loop computes the groups of the description. *)
Lemma group_by_url_spec (l : list value) (gs : dict (list value)) :
  group_by_url l = Ok gs ->
  forallb groupable l = true /\ gs = groups_spec l.
Proof.
  intros H. apply group_loop_ok in H. destruct H as [Hg ->].
  split; auto.
  induction l as [|x l IH] using rev_ind; auto.
  rewrite forallb_app in Hg. apply andb_true_iff in Hg. destruct Hg as [Hl Hx].
  simpl in Hx. rewrite andb_true_r in Hx.
  rewrite fold_left_app. simpl. rewrite (IH Hl).
  symmetry. apply groups_spec_snoc, groupable_hashable, Hx.
Qed.

Lemma group_by_url_total (l : list value) :
  forallb groupable l = true -> group_by_url l = Ok (groups_spec l).
Proof.
  intros H. unfold group_by_url. rewrite (group_loop_total _ _ H).
  destruct (group_by_url_spec l _ (group_loop_total _ [] H)) as [_ E].
  now rewrite E.
Qed.

Lemma append_group_perm (gs : dict (list value)) (u x : value) :
  Permutation (flat_map snd (append_group gs u x)) (flat_map snd gs ++ [x]).
Proof.
  induction gs as [|[k g] r IH]; simpl; auto.
  destruct (py_eqb k u); simpl.
  - rewrite <- !app_assoc. apply Permutation_app_head, Permutation_app_comm.
  - rewrite <- app_assoc. now apply Permutation_app_head.
Qed.

Lemma groups_spec_perm (l : list value) :
  forallb groupable l = true ->
  Permutation l (flat_map snd (groups_spec l)).
Proof.
  induction l as [|x l IH] using rev_ind; intros Hg; auto.
  rewrite forallb_app in Hg. apply andb_true_iff in Hg. destruct Hg as [Hl Hx].
  simpl in Hx. rewrite andb_true_r in Hx.
  rewrite groups_spec_snoc by now apply groupable_hashable.
  rewrite append_group_perm. apply Permutation_app_tail, IH, Hl.
Qed.

Lemma groups_spec_in (l : list value) (k : value) (g : list value) :
  In (k, g) (groups_spec l) -> In k (map url_of l) /\ g = members l k.
Proof.
  unfold groups_spec. intros H. apply in_map_iff in H.
  destruct H as [k' [E H]]. inversion E; subst.
  split; auto. now apply first_occ_incl.
Qed.

Lemma members_compat (l : list value) (k k' : value) :
  py_eqb k k' = true -> members l k = members l k'.
Proof.
  intros H. unfold members. apply filter_ext. intros r.
  now apply py_eqb_compat_l.
Qed.

Lemma members_in (l : list value) (k r : value) :
  In r (members l k) <-> In r l /\ py_eqb k (url_of r) = true.
Proof. unfold members. now rewrite filter_In. Qed.

Lemma filter_big_small_perm (gs : dict (list value)) :
  Permutation (flat_map snd gs)
    (flat_map snd (filter big gs) ++ flat_map snd (filter small gs)).
Proof.
  induction gs as [|g r IH]; simpl; auto.
  unfold small at 1. destruct (big g); simpl.
  - rewrite <- app_assoc. now apply Permutation_app_head.
  - rewrite IH. rewrite !app_assoc.
    apply Permutation_app_tail, Permutation_app_comm.
Qed.

Section MergeProperties.

Variable list_of_set : list value -> list value.

(** What the output loop returns, from the groups it is given. *)
Lemma process_groups_ok (gs : dict (list value)) :
  forall m s m' s',
    process_groups list_of_set gs m s = Ok (m', s') ->
    exists ds,
      Forall2 (fun g d => merge_group list_of_set [] (snd g) = Ok d) (filter big gs) ds /\
      m' = m ++ map wrap ds /\
      s' = s ++ flat_map snd (filter small gs) /\
      Forall (fun g => exists g0, snd g = [g0]) (filter small gs).
Proof.
  induction gs as [|[k g] r IH]; simpl; intros m s m' s' H.
  - inversion H; subst. exists []. simpl. rewrite !app_nil_r. auto.
  - assert (Eb : big (k, g) = (1 <? List.length g)) by reflexivity.
    assert (Es : small (k, g) = negb (1 <? List.length g)) by reflexivity.
    rewrite Eb, Es.
    destruct (1 <? List.length g) eqn:E; simpl.
    + destruct (merge_group list_of_set [] g) as [d|e] eqn:Ed; simpl in H;
        try discriminate.
      apply IH in H. destruct H as [ds [H1 [H2 [H3 H4]]]].
      exists (d :: ds). simpl. rewrite <- app_assoc in H2. auto.
    + destruct g as [|g0 g']; try discriminate.
      apply IH in H. destruct H as [ds [H1 [H2 [H3 H4]]]].
      exists ds. rewrite <- app_assoc in H3.
      assert (g' = []) as ->.
      { destruct g'; auto. simpl in E. discriminate. }
      simpl. repeat split; auto. constructor; auto. now exists g0.
Qed.

Lemma merge_dicts_by_url_ok (l merged single : list value) :
  merge_dicts_by_url list_of_set l = Ok (merged, single) ->
  forallb groupable l = true /\
  group_by_url l = Ok (groups_spec l) /\
  exists ds,
    Forall2 (fun g d => merge_group list_of_set [] (snd g) = Ok d)
      (filter big (groups_spec l)) ds /\
    merged = map wrap ds /\
    single = flat_map snd (filter small (groups_spec l)) /\
    Forall (fun g => exists g0, snd g = [g0]) (filter small (groups_spec l)).
Proof.
  unfold merge_dicts_by_url. intros H.
  destruct (group_by_url l) as [gs|e] eqn:E; simpl in H; try discriminate.
  apply group_by_url_spec in E. destruct E as [Hg ->].
  split; auto. split; auto.
  apply process_groups_ok in H. exact H.
Qed.

End MergeProperties.

Lemma distinct_keys_eq (ks : list value) (a b : value) :
  distinct_keys ks -> In a ks -> In b ks -> py_eqb a b = true -> a = b.
Proof.
  induction 1 as [|k r Hk Hr IH]; simpl; intros Ha Hb E; try tauto.
  rewrite Forall_forall in Hk.
  destruct Ha as [->|Ha], Hb as [->|Hb]; auto.
  - rewrite (Hk _ Hb) in E. discriminate.
  - rewrite py_eqb_sym, (Hk _ Ha) in E. discriminate.
Qed.

(** A record belongs to one group only. *)
Lemma groups_spec_unique (l : list value) (k k' : value) (g g' : list value) (r : value) :
  In (k, g) (groups_spec l) -> In (k', g') (groups_spec l) ->
  In r g -> In r g' -> (k, g) = (k', g').
Proof.
  intros Hg Hg' Hr Hr'.
  assert (Hk : In k (first_occ (map url_of l)) /\ g = members l k).
  { unfold groups_spec in Hg. apply in_map_iff in Hg.
    destruct Hg as [x [E Hx]]. inversion E; subst. auto. }
  assert (Hk' : In k' (first_occ (map url_of l)) /\ g' = members l k').
  { unfold groups_spec in Hg'. apply in_map_iff in Hg'.
    destruct Hg' as [x [E Hx]]. inversion E; subst. auto. }
  destruct Hk as [Hk ->], Hk' as [Hk' ->].
  apply members_in in Hr, Hr'. destruct Hr as [_ Hr], Hr' as [_ Hr'].
  assert (E : py_eqb k k' = true).
  { rewrite py_eqb_sym in Hr'. eapply py_eqb_trans; eauto. }
  now rewrite (distinct_keys_eq _ _ _ (first_occ_distinct _) Hk Hk' E).
Qed.

Lemma Forall2_singletons (gs : dict (list value)) :
  Forall (fun g => exists g0, snd g = [g0]) gs ->
  Forall2 (fun g s => snd g = [s]) gs (flat_map snd gs).
Proof.
  induction 1 as [|g r [g0 Hg] Hr IH]; simpl; auto.
  rewrite Hg. simpl. constructor; auto.
Qed.

Section Partition.

Variable list_of_set : list value -> list value.

Lemma Forall2_merged (gs : dict (list value)) (ds : list (dict value)) :
  Forall2 (fun g d => merge_group list_of_set [] (snd g) = Ok d) gs ds ->
  Forall (fun g => big g = true) gs ->
  Forall2 (fun g m => 2 <= List.length (snd g) /\
                      exists d, merge_group list_of_set [] (snd g) = Ok d /\
                                m = wrap d)
          gs (map wrap ds).
Proof.
  induction 1 as [|g d gs' ds' Hd Hrest IH]; simpl; intros Hb; auto.
  inversion Hb as [|? ? H1 H2]; subst. constructor; auto.
  split; eauto. unfold big in H1. apply Nat.ltb_lt in H1. lia.
Qed.

(** C1.  Whenever the merger returns, the groups it built partition the
    input: the input is a permutation of the concatenated groups and no
    record lies in two groups; every group of two or more records gives
    one merged record, every other group is a single record that is
    output unmatched; the records folded into merged outputs and the
    unmatched ones add up to the input and have no record in common. *)
Theorem merge_partition (dict_list merged_dicts single_entries : list value) :
  merge_dicts_by_url list_of_set dict_list = Ok (merged_dicts, single_entries) ->
  exists url_groups : dict (list value),
    group_by_url dict_list = Ok url_groups /\
    Permutation dict_list (flat_map snd url_groups) /\
    (forall k g k' g' r,
        In (k, g) url_groups -> In (k', g') url_groups ->
        In r g -> In r g' -> (k, g) = (k', g')) /\
    Forall2 (fun g m => 2 <= List.length (snd g) /\
                        exists d, merge_group list_of_set [] (snd g) = Ok d /\
                                  m = wrap d)
            (filter big url_groups) merged_dicts /\
    Forall2 (fun g s => snd g = [s]) (filter small url_groups) single_entries /\
    let folded := flat_map snd (filter big url_groups) in
    List.length folded + List.length single_entries = List.length dict_list /\
    Permutation dict_list (folded ++ single_entries) /\
    (forall r, In r folded -> ~ In r single_entries).
Proof.
  intros H. apply merge_dicts_by_url_ok in H.
  destruct H as [Hg [Hgs [ds [Hds [-> [-> Hs]]]]]].
  exists (groups_spec dict_list).
  assert (HP : Permutation dict_list
                 (flat_map snd (filter big (groups_spec dict_list)) ++
                  flat_map snd (filter small (groups_spec dict_list)))).
  { rewrite <- filter_big_small_perm. now apply groups_spec_perm. }
  split; [exact Hgs | ].
  split; [now apply groups_spec_perm | ].
  split; [intros; eapply groups_spec_unique; eauto | ].
  split.
  { apply Forall2_merged; auto.
    apply Forall_forall. intros g Hin. apply filter_In in Hin. tauto. }
  split; [now apply Forall2_singletons | ].
  simpl. split; [ | split; auto].
  - apply Permutation_length in HP. rewrite length_app in HP. lia.
  - intros r Hr Hr'.
    apply in_flat_map in Hr, Hr'.
    destruct Hr as [[k g] [Hin Hr]], Hr' as [[k' g'] [Hin' Hr']].
    apply filter_In in Hin, Hin'. destruct Hin as [Hin Hb], Hin' as [Hin' Hs'].
    simpl in *.
    pose proof (groups_spec_unique _ _ _ _ _ _ Hin Hin' Hr Hr') as E.
    inversion E; subst. unfold small in Hs'. rewrite Hb in Hs'. discriminate.
Qed.

(** C10.  A merged record is a mapping with the single top-level field
    [data], and what it holds depends on the [data] of its members only;
    an unmatched record is one of the input records, as it came in. *)
Theorem merged_only_data (dict_list merged_dicts single_entries : list value) :
  merge_dicts_by_url list_of_set dict_list = Ok (merged_dicts, single_entries) ->
  Forall (fun m => exists d, m = VDict [(VStr "data", VDict d)]) merged_dicts /\
  Forall (fun s => In s dict_list) single_entries /\
  (forall group group',
      map (fun r => getitem r "data") group = map (fun r => getitem r "data") group' ->
      merge_group list_of_set [] group = merge_group list_of_set [] group').
Proof.
  intros H. apply merge_dicts_by_url_ok in H.
  destruct H as [Hg [Hgs [ds [Hds [-> [-> Hs]]]]]].
  split; [ | split].
  - apply Forall_forall. intros m Hm. apply in_map_iff in Hm.
    destruct Hm as [d [<- _]]. now exists d.
  - apply Forall_forall. intros s Hin. apply in_flat_map in Hin.
    destruct Hin as [[k g] [Hin Hs']]. apply filter_In in Hin.
    destruct Hin as [Hin _]. apply groups_spec_in in Hin.
    destruct Hin as [_ ->]. simpl in Hs'. now apply members_in in Hs'.
  - intros group. generalize (@nil (value * value)).
    induction group as [|r g IH]; intros acc [|r' g'] E; simpl in *;
      try discriminate; auto.
    inversion E as [[E1 E2]]. rewrite E1.
    destruct (getitem r' "data") as [data|e]; simpl; auto.
    destruct (items data) as [its|e]; simpl; auto.
    destruct (merge_items list_of_set acc its); simpl; auto.
Qed.

End Partition.

(** ** Order of the outputs *)

Lemma filter_twice {A : Type} (f g : A -> bool) (l : list A) :
  filter g (filter f l) = filter (fun a => f a && g a) l.
Proof.
  induction l as [|a l IH]; simpl; auto.
  destruct (f a); simpl; auto. destruct (g a); simpl; congruence.
Qed.

Lemma flat_map_ext_in {A B : Type} (f g : A -> list B) (l : list A) :
  (forall a, In a l -> f a = g a) -> flat_map f l = flat_map g l.
Proof.
  intros H. rewrite !flat_map_concat_map. f_equal. now apply map_ext_in.
Qed.

Lemma members_cons (x : value) (l : list value) (k : value) :
  members (x :: l) k =
  if py_eqb k (url_of x) then x :: members l k else members l k.
Proof. reflexivity. Qed.

Lemma members_nil_iff (l : list value) (k : value) :
  members l k = [] -> forall r, In r l -> py_eqb k (url_of r) = false.
Proof.
  intros H r Hr. destruct (py_eqb k (url_of r)) eqn:E; auto.
  assert (Hin : In r (members l k)) by (apply members_in; auto).
  rewrite H in Hin. destruct Hin.
Qed.

(** Groups of one record, taken in the order of their keys, come out in
    the order of the input. *)
Lemma singles_in_order (l : list value) :
  forallb groupable l = true ->
  forall P : value -> bool,
    (forall a b, py_eqb a b = true -> P a = P b) ->
    (forall r, In r l -> P (url_of r) = true ->
               List.length (members l (url_of r)) <= 1) ->
    flat_map (members l) (filter P (first_occ (map url_of l))) =
    filter (fun r => P (url_of r)) l.
Proof.
  induction l as [|x l IH]; intros Hg P HP Hone; [reflexivity | ].
  cbn [forallb] in Hg. apply andb_true_iff in Hg. destruct Hg as [Hx Hl].
  apply groupable_hashable, py_eqb_refl in Hx.
  cbn [map first_occ filter].
  set (u := url_of x) in *.
  set (P' := fun k => negb (py_eqb u k) && P k).
  assert (Hrest :
    flat_map (members (x :: l))
      (filter P (filter (fun y => negb (py_eqb u y)) (first_occ (map url_of l)))) =
    filter (fun r => P' (url_of r)) l).
  { rewrite filter_twice. fold P'. rewrite <- (IH Hl P').
    - apply flat_map_ext_in. intros k Hk. apply filter_In in Hk.
      destruct Hk as [_ Hk]. unfold P' in Hk. apply andb_true_iff in Hk.
      destruct Hk as [Hk _]. apply negb_true_iff in Hk.
      rewrite members_cons. fold u. now rewrite py_eqb_sym, Hk.
    - intros a b E. unfold P'. now rewrite (HP _ _ E), (py_eqb_compat_r _ _ u E).
    - intros r Hr Hp. unfold P' in Hp. apply andb_true_iff in Hp.
      destruct Hp as [Hn Hp]. apply negb_true_iff in Hn.
      specialize (Hone r (or_intror Hr) Hp).
      rewrite members_cons in Hone. fold u in Hone.
      now rewrite py_eqb_sym, Hn in Hone. }
  destruct (P u) eqn:Pu; cbn [flat_map].
  - pose proof (Hone x (or_introl eq_refl) Pu) as H1.
    fold u in H1. rewrite members_cons in H1. fold u in H1. rewrite Hx in H1.
    simpl in H1.
    assert (Hnil : members l u = []).
    { destruct (members l u); auto. simpl in H1. lia. }
    rewrite members_cons. fold u. rewrite Hx, Hnil. simpl. f_equal.
    rewrite Hrest. apply filter_ext_in. intros r Hr. unfold P'.
    now rewrite (members_nil_iff _ _ Hnil r Hr).
  - rewrite Hrest. apply filter_ext_in. intros r Hr. unfold P'.
    destruct (py_eqb u (url_of r)) eqn:E; simpl; auto.
    now rewrite <- (HP _ _ E).
Qed.

Lemma Forall2_filter_map {A B C : Type} (R : B -> C -> Prop) (F : A -> B)
  (f : B -> bool) (ks : list A) (ds : list C) :
  Forall2 R (filter f (map F ks)) ds ->
  Forall2 (fun k d => R (F k) d) (filter (fun k => f (F k)) ks) ds.
Proof.
  rewrite filter_map_swap. remember (filter (fun k => f (F k)) ks) as l.
  clear Heql. revert ds.
  induction l as [|k l IH]; simpl; intros ds H; inversion H; subst; auto.
Qed.

Lemma Forall2_map_r {A B C : Type} (R : A -> B -> Prop) (f : C -> B)
  (l : list A) (ds : list C) :
  Forall2 (fun a d => R a (f d)) l ds -> Forall2 R l (map f ds).
Proof. induction 1; simpl; auto. Qed.

Section Order.

Variable list_of_set : list value -> list value.

(** C6.  Whenever the merger returns: a merged record is produced for each
    key that two or more records carry, in the order in which the keys
    first occur in the input, by folding the records with that key in
    their input order; the unmatched output is the input with the records
    of those keys left out, the others in their input order. *)
Theorem merge_order (dict_list merged_dicts single_entries : list value) :
  merge_dicts_by_url list_of_set dict_list = Ok (merged_dicts, single_entries) ->
  let keys := first_occ (map url_of dict_list) in
  let group k := filter (fun r => py_eqb k (url_of r)) dict_list in
  Forall (fun r => item_url r = Ok (url_of r)) dict_list /\
  Forall2 (fun k m => exists d, merge_group list_of_set [] (group k) = Ok d /\
                                m = wrap d)
          (filter (fun k => 1 <? List.length (group k)) keys) merged_dicts /\
  single_entries =
    filter (fun r => negb (1 <? List.length (group (url_of r)))) dict_list.
Proof.
  intros H keys group. apply merge_dicts_by_url_ok in H.
  destruct H as [Hg [Hgs [ds [Hds [-> [-> Hs]]]]]].
  split; [ | split].
  - apply Forall_forall. intros r Hr.
    rewrite forallb_forall in Hg. specialize (Hg r Hr).
    unfold groupable in Hg. unfold url_of.
    destruct (item_url r); auto; discriminate.
  - apply (Forall2_filter_map _ (fun k => (k, members dict_list k)) big) in Hds.
    apply Forall2_map_r. eapply Forall2_impl; [ | exact Hds].
    intros k d Hd. exists d. auto.
  - unfold groups_spec. rewrite filter_map_swap, flat_map_concat_map, map_map.
    rewrite <- flat_map_concat_map. simpl.
    apply (singles_in_order dict_list Hg
             (fun k => negb (1 <? List.length (members dict_list k)))).
    + intros a b E. now rewrite (members_compat _ _ _ E).
    + intros r Hr Hp. apply negb_true_iff, Nat.ltb_ge in Hp. exact Hp.
Qed.

End Order.

(** ** Records without a key *)

Lemma keyless_url (item : value) : keyless item = true -> item_url item = Ok VNone.
Proof.
  unfold keyless, item_url. destruct (getitem item "data") as [[]|]; simpl;
    try discriminate.
  destruct (dict_get d (VStr "EOSLogURL")); auto; discriminate.
Qed.

Lemma keyless_loop (l : list value) :
  forall g, forallb keyless l = true ->
            group_loop l [(VNone, g)] = Ok [(VNone, g ++ l)].
Proof.
  induction l as [|x l IH]; simpl; intros g H.
  - now rewrite app_nil_r.
  - apply andb_true_iff in H. destruct H as [Hx Hl].
    rewrite (keyless_url _ Hx). simpl. rewrite (IH _ Hl).
    now rewrite <- app_assoc.
Qed.

Lemma py_eqb_none (a : value) : py_eqb a VNone = true -> a = VNone.
Proof. destruct a; simpl; auto; discriminate. Qed.

Lemma filter_length_le {A : Type} (f g : A -> bool) (l : list A) :
  (forall a, f a = true -> g a = true) ->
  List.length (filter f l) <= List.length (filter g l).
Proof.
  intros H. induction l as [|a l IH]; simpl; auto.
  destruct (f a) eqn:E.
  - rewrite (H _ E). simpl. lia.
  - destruct (g a); simpl; lia.
Qed.

Lemma Forall2_in_l {A B : Type} (R : A -> B -> Prop) (l : list A) (ds : list B) (a : A) :
  Forall2 R l ds -> In a l -> exists d, In d ds /\ R a d.
Proof.
  induction 1 as [|x d l' ds' Hd Hrest IH]; simpl; intros Hin; try tauto.
  destruct Hin as [->|Hin]; eauto.
  destruct (IH Hin) as [d' [H1 H2]]. eauto.
Qed.

Section Keyless.

Variable list_of_set : list value -> list value.

(** C9.  A record without [EOSLogURL] is grouped under the key [None]
    and raises nothing: a batch of such records is one group, and the
    grouping of a batch returns when its other records have a key that
    can be hashed.  When the merger returns and the input has two or more
    records without [EOSLogURL], they all are in the group of [None], that
    group is folded into one of the merged records, and none of its
    records is output unmatched. *)
Theorem keyless_merged :
  (forall item, keyless item = true -> item_url item = Ok VNone) /\
  (forall item rest,
      forallb keyless (item :: rest) = true ->
      group_by_url (item :: rest) = Ok [(VNone, item :: rest)]) /\
  (forall dict_list,
      forallb (fun r => keyless r || groupable r) dict_list = true ->
      group_by_url dict_list = Ok (groups_spec dict_list)) /\
  (forall dict_list merged_dicts single_entries,
      merge_dicts_by_url list_of_set dict_list = Ok (merged_dicts, single_entries) ->
      2 <= List.length (filter keyless dict_list) ->
      let none_group := filter (fun r => py_eqb VNone (url_of r)) dict_list in
      incl (filter keyless dict_list) none_group /\
      (exists d, merge_group list_of_set [] none_group = Ok d /\
                 In (wrap d) merged_dicts) /\
      (forall r, In r none_group -> ~ In r single_entries)).
Proof.
  split; [exact keyless_url | split; [ | split]].
  - intros item rest H. simpl in H. apply andb_true_iff in H.
    destruct H as [Hx Hl]. unfold group_by_url. simpl.
    rewrite (keyless_url _ Hx). simpl. apply (keyless_loop rest [item] Hl).
  - intros l H. apply group_by_url_total.
    rewrite forallb_forall in *. intros r Hr. specialize (H r Hr).
    apply orb_true_iff in H. destruct H as [H|H]; auto.
    unfold groupable. now rewrite (keyless_url _ H).
  - intros l merged single H Htwo none_group.
    apply merge_dicts_by_url_ok in H.
    destruct H as [Hg [Hgs [ds [Hds [-> [-> Hs]]]]]].
    assert (Hincl : incl (filter keyless l) none_group).
    { intros r Hr. apply filter_In in Hr. destruct Hr as [Hr Hk].
      apply filter_In. split; auto.
      unfold url_of. now rewrite (keyless_url _ Hk). }
    assert (Hlen : 2 <= List.length none_group).
    { etransitivity; [exact Htwo | ]. apply filter_length_le.
      intros r Hk. unfold url_of. now rewrite (keyless_url _ Hk). }
    assert (Hin : In (VNone, none_group) (groups_spec l)).
    { unfold groups_spec. apply in_map_iff. exists VNone. split; auto.
      assert (E : existsb (fun k => py_eqb k VNone) (first_occ (map url_of l)) = true).
      { rewrite first_occ_seen. apply existsb_exists.
        destruct none_group as [|r g] eqn:En; [simpl in Hlen; lia | ].
        assert (Hr : In r (members l VNone)).
        { unfold members. fold none_group. rewrite En. now left. }
        apply members_in in Hr. destruct Hr as [Hr E].
        exists (url_of r). split; [now apply in_map | now rewrite py_eqb_sym]. }
      apply existsb_exists in E. destruct E as [k [Hk E]].
      apply py_eqb_none in E. now subst. }
    assert (Hbig : big (VNone, none_group) = true).
    { unfold big. simpl. apply Nat.ltb_lt. lia. }
    split; auto. split.
    + destruct (Forall2_in_l _ _ _ (VNone, none_group) Hds) as [d [Hd Hm]].
      { apply filter_In. auto. }
      exists d. split; auto. now apply in_map.
    + intros r Hr Hr'. apply in_flat_map in Hr'.
      destruct Hr' as [[k' g'] [Hin' Hr']]. apply filter_In in Hin'.
      destruct Hin' as [Hin' Hsm]. simpl in Hr'.
      pose proof (groups_spec_unique _ _ _ _ _ _ Hin Hin' Hr Hr') as E.
      rewrite <- E in Hsm. unfold small in Hsm. rewrite Hbig in Hsm. discriminate.
Qed.

End Keyless.

(** ** The fold of a group *)

Lemma dict_has_set {A : Type} (d : dict A) (k k' : value) (v : A) :
  dict_has (dict_set d k v) k' = dict_has d k' || py_eqb k k'.
Proof.
  unfold dict_has, dict_keys.
  induction d as [|[k0 v0] r IH]; simpl.
  - now rewrite orb_false_r.
  - destruct (py_eqb k0 k) eqn:E; simpl.
    + rewrite <- (py_eqb_compat_l _ _ k' E).
      now destruct (py_eqb k0 k'), (existsb (fun x => py_eqb x k') (map fst r)).
    + rewrite IH. now rewrite orb_assoc.
Qed.

Section Fold.

Variable list_of_set : list value -> list value.

Lemma merge_field_keys (merged merged' : dict value) (key v k' : value) :
  merge_field list_of_set merged key v = Ok merged' ->
  dict_has merged' k' = dict_has merged k' || py_eqb key k'.
Proof.
  unfold merge_field. destruct (dict_get merged key) as [existing|].
  - destruct (merge_value list_of_set existing v) as [new|e]; simpl;
      intros H; inversion H. apply dict_has_set.
  - intros H; inversion H. apply dict_has_set.
Qed.

Lemma merge_items_keys (its : dict value) :
  forall merged merged' k',
    merge_items list_of_set merged its = Ok merged' ->
    dict_has merged' k' = dict_has merged k' || dict_has its k'.
Proof.
  induction its as [|[key v] rest IH]; simpl; intros merged merged' k' H.
  - inversion H. now rewrite orb_false_r.
  - destruct (merge_field list_of_set merged key v) as [m1|e] eqn:E; simpl in H;
      try discriminate.
    rewrite (IH _ _ _ H), (merge_field_keys _ _ _ _ _ E).
    unfold dict_has at 4. simpl. now rewrite orb_assoc.
Qed.

Lemma merge_group_keys (group : list value) :
  forall merged merged' k',
    merge_group list_of_set merged group = Ok merged' ->
    Forall (fun d => exists data, getitem d "data" = Ok (VDict data)) group /\
    (dict_has merged' k' = true <->
     dict_has merged k' = true \/
     exists d data, In d group /\ getitem d "data" = Ok (VDict data) /\
                    dict_has data k' = true).
Proof.
  induction group as [|d rest IH]; simpl; intros merged merged' k' H.
  - inversion H; subst. split; auto. split; auto.
    intros [H1|[d [data [[] _]]]]; auto.
  - destruct (getitem d "data") as [data|e] eqn:Ed; simpl in H; try discriminate.
    destruct data as [| | | | | |data]; simpl in H; try discriminate.
    destruct (merge_items list_of_set merged data) as [m1|e] eqn:E; simpl in H;
      try discriminate.
    destruct (IH _ _ k' H) as [HF Hiff]. split.
    + constructor; eauto.
    + rewrite Hiff, (merge_items_keys _ _ _ k' E), orb_true_iff. split.
      * intros [[H1|H1]|[d' [data' [Hin H1]]]]; auto.
        -- right. exists d, data. auto.
        -- right. exists d', data'. auto.
      * intros [H1|[d' [data' [[<-|Hin] [H1 H2]]]]]; auto.
        -- rewrite Ed in H1. inversion H1; subst. auto.
        -- right. exists d', data'. auto.
Qed.

(** C4.  When the fold of a group (of any size) completes, the fields of the merged
    record are those of the [data] mappings of the group's records: a
    field is in the merged record if and only if it is in the [data] of
    one of them. *)
Theorem merged_fields_union (group : list value) (merged : dict value) :
  merge_group list_of_set [] group = Ok merged ->
  Forall (fun d => exists data, getitem d "data" = Ok (VDict data)) group /\
  forall field,
    dict_has merged field = true <->
    exists d data, In d group /\ getitem d "data" = Ok (VDict data) /\
                   dict_has data field = true.
Proof.
  intros H. split.
  - apply (merge_group_keys _ _ _ VNone H).
  - intros field. destruct (merge_group_keys _ _ _ field H) as [_ Hiff].
    rewrite Hiff. simpl. split; auto. intros [H1|H1]; auto. discriminate.
Qed.

End Fold.

(** ** Sequences and conflicts *)

Section Sequences.

Variable list_of_set : list value -> list value.

(** A set holds one element of each class of equal elements. *)
Hypothesis list_of_set_perm :
  forall l, forallb is_primitive l = true ->
            Permutation (list_of_set l) (first_occ l).

(** C5.  When the merged record holds a sequence under a field, an
    incoming value is appended to it, its elements one by one when it is a
    sequence itself; if all elements then are strings or numbers the
    sequence is replaced by its set of elements, in some order, else it is
    kept as extended.  For the two records of the example the merged [f]
    is a permutation of ["a", "b"]. *)
Theorem sequence_extended :
  (forall merged field l v,
      dict_get merged field = Some (VList l) ->
      let ext := l ++ match v with VList vl => vl | _ => [v] end in
      exists out,
        merge_field list_of_set merged field v =
          Ok (dict_set merged field (VList out)) /\
        if forallb is_primitive ext
        then Permutation out (first_occ ext)
        else out = ext) /\
  (forall url, exists f,
      merge_dicts_by_url list_of_set [seq_r1 url; seq_r2 url] =
        Ok ([wrap [(VStr "f", VList f); (VStr "EOSLogURL", VStr url)]], []) /\
      Permutation f [VStr "a"; VStr "b"]).
Proof.
  split.
  - intros merged field l v Hget ext. unfold merge_field. rewrite Hget. simpl.
    fold ext. destruct (forallb is_primitive ext) eqn:E.
    + exists (list_of_set ext). split; auto.
    + exists ext. split; auto.
  - intros url.
    exists (list_of_set [VStr "a"; VStr "a"; VStr "b"]). split.
    + unfold merge_dicts_by_url, group_by_url. simpl.
      rewrite String.eqb_refl. reflexivity.
    + rewrite list_of_set_perm by reflexivity. reflexivity.
Qed.

End Sequences.

(** C7, as stated, fails: with the mapping first and the number second the
    merger raises the built-in [TypeError], which holds nothing; with the
    number first the mapping replaces it and nothing is raised. *)
Lemma conflict_not_reported :
  merge_dicts_by_url first_occ [conflict_mapping; conflict_scalar] = Raise TypeError /\
  ~ reports_conflict
      (merge_dicts_by_url first_occ [conflict_mapping; conflict_scalar])
      (VStr "u") (VStr "meta") (VDict [(VStr "x", VInt 1)]) (VInt 1) /\
  merge_dicts_by_url first_occ [conflict_scalar; conflict_mapping] =
    Ok ([wrap [(VStr "EOSLogURL", VStr "u");
               (VStr "meta", VDict [(VStr "x", VInt 1)])]], []) /\
  ~ reports_conflict
      (merge_dicts_by_url first_occ [conflict_scalar; conflict_mapping])
      (VStr "u") (VStr "meta") (VInt 1) (VDict [(VStr "x", VInt 1)]).
Proof.
  assert (H1 : merge_dicts_by_url first_occ [conflict_mapping; conflict_scalar]
               = Raise TypeError) by reflexivity.
  assert (H2 : merge_dicts_by_url first_occ [conflict_scalar; conflict_mapping]
               = Ok ([wrap [(VStr "EOSLogURL", VStr "u");
                            (VStr "meta", VDict [(VStr "x", VInt 1)])]], []))
    by reflexivity.
  repeat split; auto.
  - rewrite H1. intros [e [E [C _]]]. inversion E; subst. discriminate.
  - rewrite H2. intros [e [E _]]. discriminate.
Qed.

Section Conflicts.

Variable list_of_set : list value -> list value.

Lemma merge_items_app (its1 its2 : dict value) :
  forall merged,
    merge_items list_of_set merged (its1 ++ its2) =
    bind (merge_items list_of_set merged its1)
         (fun m => merge_items list_of_set m its2).
Proof.
  induction its1 as [|[key v] rest IH]; simpl; intros merged; auto.
  destruct (merge_field list_of_set merged key v); simpl; auto.
Qed.

Lemma merge_group_app (g1 g2 : list value) :
  forall merged,
    merge_group list_of_set merged (g1 ++ g2) =
    bind (merge_group list_of_set merged g1)
         (fun m => merge_group list_of_set m g2).
Proof.
  induction g1 as [|d rest IH]; simpl; intros merged; auto.
  destruct (getitem d "data") as [data|e]; simpl; auto.
  destruct (items data) as [its|e]; simpl; auto.
  destruct (merge_items list_of_set merged its); simpl; auto.
Qed.

(** C7, amended.  In the fold, when the merged record holds a mapping
    under a field and the incoming value is [None], a boolean or a number,
    the built-in [TypeError] is raised, and the built-in [ValueError] when
    it is a non-empty string; they hold neither key, field name nor value.
    When the merged record holds a scalar or [None] under the field, any
    incoming value, a mapping too, replaces it and nothing is raised.  An
    exception raised for a field ends the fold of the group with that
    exception, and leaves the merger without a result. *)
Theorem conflict_behaviour :
  (forall merged field e v,
      dict_get merged field = Some (VDict e) ->
      non_iterable v = true ->
      merge_field list_of_set merged field v = Raise TypeError) /\
  (forall merged field e c s,
      dict_get merged field = Some (VDict e) ->
      merge_field list_of_set merged field (VStr (String c s)) = Raise ValueError) /\
  exn_args TypeError = [] /\ exn_args ValueError = [] /\
  (forall merged field existing v,
      dict_get merged field = Some existing ->
      scalar_or_none existing = true ->
      merge_field list_of_set merged field v = Ok (dict_set merged field v)) /\
  (forall merged before d after fields_before field v fields_after m1 m2 e,
      merge_group list_of_set merged before = Ok m1 ->
      getitem d "data" = Ok (VDict (fields_before ++ (field, v) :: fields_after)) ->
      merge_items list_of_set m1 fields_before = Ok m2 ->
      merge_field list_of_set m2 field v = Raise e ->
      merge_group list_of_set merged (before ++ d :: after) = Raise e) /\
  (forall dict_list url_groups g,
      group_by_url dict_list = Ok url_groups ->
      In g url_groups -> big g = true ->
      is_ok (merge_group list_of_set [] (snd g)) = false ->
      is_ok (merge_dicts_by_url list_of_set dict_list) = false).
Proof.
  repeat split.
  - intros merged field e v Hget Hv. unfold merge_field. rewrite Hget.
    destruct v; try discriminate; reflexivity.
  - intros merged field e c s Hget. unfold merge_field. rewrite Hget. reflexivity.
  - intros merged field existing v Hget Hs. unfold merge_field. rewrite Hget.
    destruct existing; try discriminate; reflexivity.
  - intros merged before d after fb field v fa m1 m2 e Hb Hd Hfb Hf.
    rewrite merge_group_app, Hb. simpl. rewrite Hd. simpl.
    rewrite merge_items_app, Hfb. simpl. now rewrite Hf.
  - intros l gs g Hgs Hin Hbig Hfail.
    destruct (merge_dicts_by_url list_of_set l) as [[m s]|e] eqn:E; auto.
    apply merge_dicts_by_url_ok in E.
    destruct E as [_ [Hgs' [ds [Hds _]]]].
    rewrite Hgs in Hgs'. inversion Hgs'; subst.
    destruct (Forall2_in_l _ _ _ g Hds) as [d [_ Hd]].
    { apply filter_In. auto. }
    rewrite Hd in Hfail. discriminate.
Qed.

End Conflicts.

(** ** Key derivation *)

Lemma append_assoc (a b c : string) : ((a ++ b) ++ c)%string = (a ++ b ++ c)%string.
Proof. induction a as [|x a IH]; simpl; congruence. Qed.

Lemma dict_get_set_same {A : Type} (d : dict A) (k : value) (v : A) :
  hashable k = true -> dict_get (dict_set d k v) k = Some v.
Proof.
  intros Hk. induction d as [|[k0 v0] r IH]; simpl.
  - now rewrite py_eqb_refl.
  - destruct (py_eqb k0 k) eqn:E; simpl; now rewrite E.
Qed.

(** The key the merger reads from a record once [url] is written to its
    [data]. *)
Lemma item_url_written (source data : dict value) (url : value) :
  item_url (VDict (dict_set source (VStr "data")
                     (VDict (dict_set data (VStr "EOSLogURL") url)))) = Ok url.
Proof.
  unfold item_url, getitem, get. rewrite dict_get_set_same by reflexivity. simpl.
  now rewrite dict_get_set_same by reflexivity.
Qed.

Lemma add_log_htc_loop_ok (data : list value) :
  forall result out,
    add_log_htc_loop data result = Ok out <->
    exists sources, Forall2 (fun entry s => htc_entry entry = Ok s) data sources /\
                    out = result ++ sources.
Proof.
  induction data as [|entry rest IH]; simpl; intros result out.
  - split.
    + intros H. inversion H. exists []. now rewrite app_nil_r.
    + intros [sources [H ->]]. inversion H. now rewrite app_nil_r.
  - destruct (htc_entry entry) as [s|e] eqn:E; simpl.
    + rewrite IH. split.
      * intros [sources [H ->]]. exists (s :: sources).
        rewrite <- app_assoc. auto.
      * intros [sources [H ->]]. inversion H; subst.
        exists l'. rewrite <- app_assoc. split; auto.
        rewrite E in H2. now inversion H2.
    + split; try discriminate.
      intros [sources [H _]]. inversion H; subst. rewrite E in H2. discriminate.
Qed.

Lemma add_log_wma_loop_ok (data : list value) :
  forall result out,
    add_log_wma_loop data result = Ok out <->
    exists sources, Forall2 (fun entry s => wma_entry entry = Ok s) data sources /\
                    out = result ++ sources.
Proof.
  induction data as [|entry rest IH]; simpl; intros result out.
  - split.
    + intros H. inversion H. exists []. now rewrite app_nil_r.
    + intros [sources [H ->]]. inversion H. now rewrite app_nil_r.
  - destruct (wma_entry entry) as [s|e] eqn:E; simpl.
    + rewrite IH. split.
      * intros [sources [H ->]]. exists (s :: sources).
        rewrite <- app_assoc. auto.
      * intros [sources [H ->]]. inversion H; subst.
        exists l'. rewrite <- app_assoc. split; auto.
        rewrite E in H2. now inversion H2.
    + split; try discriminate.
      intros [sources [H _]]. inversion H; subst. rewrite E in H2. discriminate.
Qed.

(** C2, amended.  For an HTC record whose [data] has the strings
    [WMAgent_SubTaskName], [ScheddName] and [Args], where [Args] cut at
    every single space character gives at least three fields, the key
    written to [EOSLogURL] (and read by the merger) is the prefix, the
    sub-task name, "/", the schedd name, "-", the second field, "-", the
    third field and "-log.tar.gz"; all records of the batch are returned,
    in order.  For the example the key is
    ".../PRODUCTION/Task1/sched1-a1-a2-log.tar.gz". *)
Theorem htc_key_written :
  (forall entry source data name schedd args a0 a1 a2 rest,
      getitem entry "_source" = Ok (VDict source) ->
      dict_get source (VStr "data") = Some (VDict data) ->
      dict_get data (VStr "WMAgent_SubTaskName") = Some (VStr name) ->
      dict_get data (VStr "ScheddName") = Some (VStr schedd) ->
      dict_get data (VStr "Args") = Some (VStr args) ->
      split_on " " args = a0 :: a1 :: a2 :: rest ->
      let key := VStr (htc_key name schedd a1 a2) in
      let source' :=
        VDict (dict_set source (VStr "data")
                 (VDict (dict_set data (VStr "EOSLogURL") key))) in
      htc_entry entry = Ok source' /\ item_url source' = Ok key) /\
  (forall data result,
      add_log_htc data = Ok result <->
      Forall2 (fun entry s => htc_entry entry = Ok s) data result) /\
  (exists source',
      add_log_htc [htc_example "x a1 a2 x"] = Ok [source'] /\
      item_url source' =
        Ok (VStr (url_prefix ++ "/Task1/sched1-a1-a2-log.tar.gz"))).
Proof.
  split; [ | split].
  - intros entry source data name schedd args a0 a1 a2 rest Hs Hd Hn Hsc Ha Hsp
           key source'.
    split; [ | apply item_url_written].
    unfold htc_entry. rewrite Hs. simpl. rewrite Hd. simpl. rewrite Ha. simpl.
    rewrite Hsp, Hn. simpl. rewrite Hsc. simpl.
    unfold source', key, htc_key. now rewrite !append_assoc.
  - intros data result. unfold add_log_htc. rewrite add_log_htc_loop_ok.
    split.
    + intros [sources [H ->]]. exact H.
    + intros H. exists result. auto.
  - eexists. split; reflexivity.
Qed.

(** C2, as stated, fails when two spaces follow each other in [Args]:
    the tokens of "x  a1 a2" are "x", "a1" and "a2", and the key written
    has the empty field and "a1" where the description has "a1" and
    "a2". *)
Lemma htc_key_tokens_differ :
  Described.tokens "x  a1 a2" = ["x"; "a1"; "a2"] /\
  exists source',
    add_log_htc [htc_example "x  a1 a2"] = Ok [source'] /\
    item_url source' = Ok (VStr (url_prefix ++ "/Task1/sched1--a1-log.tar.gz")) /\
    item_url source' <>
      Ok (VStr (Described.htc_key_described "/Task1" "sched1" "x  a1 a2")).
Proof.
  split; [reflexivity | ].
  eexists. split; [reflexivity | ]. split; [reflexivity | ].
  vm_compute. discriminate.
Qed.



(** C8, as stated, fails: the exception raised for a missing field is the
    built-in [KeyError], which holds the name of the field and nothing of
    the origin or the record. *)
Lemma missing_field_not_reported :
  add_log_htc [htc_no_args] = Raise (KeyError (VStr "Args")) /\
  ~ reports_missing_field (add_log_htc [htc_no_args])
      (VStr "HTC") htc_no_args (VStr "Args") /\
  add_log_wma [wma_no_task] = Raise (KeyError (VStr "task")) /\
  ~ reports_missing_field (add_log_wma [wma_no_task])
      (VStr "WMA") wma_no_task (VStr "task").
Proof.
  assert (H1 : add_log_htc [htc_no_args] = Raise (KeyError (VStr "Args")))
    by reflexivity.
  assert (H2 : add_log_wma [wma_no_task] = Raise (KeyError (VStr "task")))
    by reflexivity.
  repeat split; auto.
  - rewrite H1. intros [e [E [C _]]]. inversion E; subst. discriminate.
  - rewrite H2. intros [e [E [C _]]]. inversion E; subst. discriminate.
Qed.

Lemma add_log_htc_raises (data : list value) (entry : value) :
  In entry data -> is_ok (htc_entry entry) = false ->
  is_ok (add_log_htc data) = false.
Proof.
  intros Hin Hf. destruct (add_log_htc data) as [out|e] eqn:E; auto.
  unfold add_log_htc in E. apply add_log_htc_loop_ok in E.
  destruct E as [sources [H _]].
  destruct (Forall2_in_l _ _ _ entry H Hin) as [s [_ Hs]].
  rewrite Hs in Hf. discriminate.
Qed.

Lemma add_log_wma_raises (data : list value) (entry : value) :
  In entry data -> is_ok (wma_entry entry) = false ->
  is_ok (add_log_wma data) = false.
Proof.
  intros Hin Hf. destruct (add_log_wma data) as [out|e] eqn:E; auto.
  unfold add_log_wma in E. apply add_log_wma_loop_ok in E.
  destruct E as [sources [H _]].
  destruct (Forall2_in_l _ _ _ entry H Hin) as [s [_ Hs]].
  rewrite Hs in Hf. discriminate.
Qed.

(** C8, amended.  For a record whose [data] mapping lacks a field that
    derivation reads, derivation raises the built-in [KeyError], which
    holds the name of the missing field only, when what is read before
    that field was found with the type derivation needs.  HTC reads
    [Args], [WMAgent_SubTaskName], [ScheddName] in this order, and what is
    read before the missing field must be a string.  WMA reads, for a
    record whose [EOSLogURL] is absent or the empty string, [task],
    [meta_data], [host] and [fwjr_id] of [meta_data] in this order; of
    what is read before the missing field, [task] and [host] must be
    strings and [meta_data] a mapping.  A record that raises leaves the
    whole batch without a result. *)
Theorem missing_field_behaviour :
  (forall entry source data,
      getitem entry "_source" = Ok source ->
      getitem source "data" = Ok (VDict data) ->
      (dict_get data (VStr "Args") = None ->
       htc_entry entry = Raise (KeyError (VStr "Args"))) /\
      (forall args,
          dict_get data (VStr "Args") = Some (VStr args) ->
          dict_get data (VStr "WMAgent_SubTaskName") = None ->
          htc_entry entry = Raise (KeyError (VStr "WMAgent_SubTaskName"))) /\
      (forall args name,
          dict_get data (VStr "Args") = Some (VStr args) ->
          dict_get data (VStr "WMAgent_SubTaskName") = Some (VStr name) ->
          dict_get data (VStr "ScheddName") = None ->
          htc_entry entry = Raise (KeyError (VStr "ScheddName")))) /\
  (forall entry source data,
      getitem entry "_source" = Ok source ->
      getitem source "data" = Ok (VDict data) ->
      dict_get data (VStr "EOSLogURL") = None \/
      dict_get data (VStr "EOSLogURL") = Some (VStr "") ->
      (dict_get data (VStr "task") = None ->
       wma_entry entry = Raise (KeyError (VStr "task"))) /\
      (forall task,
          dict_get data (VStr "task") = Some (VStr task) ->
          dict_get data (VStr "meta_data") = None ->
          wma_entry entry = Raise (KeyError (VStr "meta_data"))) /\
      (forall task meta,
          dict_get data (VStr "task") = Some (VStr task) ->
          dict_get data (VStr "meta_data") = Some (VDict meta) ->
          dict_get meta (VStr "host") = None ->
          wma_entry entry = Raise (KeyError (VStr "host"))) /\
      (forall task meta host,
          dict_get data (VStr "task") = Some (VStr task) ->
          dict_get data (VStr "meta_data") = Some (VDict meta) ->
          dict_get meta (VStr "host") = Some (VStr host) ->
          dict_get meta (VStr "fwjr_id") = None ->
          wma_entry entry = Raise (KeyError (VStr "fwjr_id")))) /\
  (forall field, exn_class (KeyError field) = "KeyError" /\
                 exn_args (KeyError field) = [field]) /\
  (forall data entry,
      In entry data -> is_ok (htc_entry entry) = false ->
      is_ok (add_log_htc data) = false) /\
  (forall data entry,
      In entry data -> is_ok (wma_entry entry) = false ->
      is_ok (add_log_wma data) = false).
Proof.
  split; [ | split; [ | split; [ | split]]].
  - intros entry source data Hs Hd. unfold htc_entry. rewrite Hs. simpl.
    rewrite Hd. simpl. repeat split.
    + intros ->. reflexivity.
    + intros args -> ->. reflexivity.
    + intros args name -> -> ->. reflexivity.
  - intros entry source data Hs Hd Hu. unfold wma_entry. rewrite Hs. simpl.
    rewrite Hd. simpl.
    assert (E : bind (match dict_get data (VStr "EOSLogURL") with
                      | Some x => Ok x
                      | None => Ok (VStr "")
                      end)
                  (fun url => Ok (py_eqb url (VStr ""))) = Ok true).
    { destruct Hu as [-> | ->]; reflexivity. }
    destruct (dict_get data (VStr "EOSLogURL")) as [u|]; simpl in *;
      inversion E as [E']; rewrite ?E'; repeat split.
    all: try (intros H1; rewrite H1; reflexivity).
    all: try (intros task H1 H2; rewrite H1; simpl; rewrite H2; reflexivity).
    all: try (intros task meta H1 H2 H3; rewrite H1; simpl; rewrite H2; simpl;
              rewrite H3; reflexivity).
    all: try (intros task meta host H1 H2 H3 H4; rewrite H1; simpl; rewrite H2;
              simpl; rewrite H3; simpl; rewrite H4; reflexivity).
  - intros field. split; reflexivity.
  - exact add_log_htc_raises.
  - exact add_log_wma_raises.
Qed.

(** * The embedding on small inputs *)

Example split_single_spaces :
  split_on " " "x a1 a2 x" = ["x"; "a1"; "a2"; "x"].
Proof. reflexivity. Qed.

Example split_adjacent_spaces :
  split_on " " "x  a1" = ["x"; ""; "a1"].
Proof. reflexivity. Qed.

Example split_empty : split_on " " "" = [""].
Proof. reflexivity. Qed.

Example equal_numbers :
  py_eqb (VBool true) (VInt 1) = true /\
  py_eqb (VInt 1) (VFloat 1) = true /\
  py_eqb (VInt 1) (VStr "1") = false /\
  py_eqb VNone (VInt 0) = false.
Proof. repeat split. Qed.

Example set_keeps_first :
  first_occ [VInt 1; VStr "a"; VBool true; VStr "a"; VFloat 2] =
  [VInt 1; VStr "a"; VFloat 2].
Proof. reflexivity. Qed.

Example scalar_last_write_wins :
  merge_group first_occ []
    [VDict [(VStr "data", VDict [(VStr "f", VInt 1)])];
     VDict [(VStr "data", VDict [(VStr "f", VInt 2)])]] =
  Ok [(VStr "f", VInt 2)].
Proof. reflexivity. Qed.

Example nested_mapping_merge :
  merge_group first_occ []
    [VDict [(VStr "data", VDict [(VStr "meta", VDict [(VStr "x", VInt 1)])])];
     VDict [(VStr "data", VDict [(VStr "meta", VDict [(VStr "y", VInt 2);
                                                      (VStr "x", VInt 9)])])]] =
  Ok [(VStr "meta", VDict [(VStr "x", VInt 9); (VStr "y", VInt 2)])].
Proof. reflexivity. Qed.

Example update_with_pairs :
  update [(VStr "x", VInt 1)] (VList [VList [VStr "y"; VInt 2]; VStr "ab"]) =
  Ok [(VStr "x", VInt 1); (VStr "y", VInt 2); (VStr "a", VStr "b")].
Proof. reflexivity. Qed.

Example unhashable_key_refused :
  merge_dicts_by_url first_occ
    [VDict [(VStr "data", VDict [(VStr "EOSLogURL", VList [])])]] = Raise TypeError.
Proof. reflexivity. Qed.

Example record_without_data :
  merge_dicts_by_url first_occ [VDict [(VStr "meta", VInt 1)]] =
  Raise (KeyError (VStr "data")).
Proof. reflexivity. Qed.

Example too_few_fields :
  add_log_htc [htc_example "x a1"] = Raise IndexError.
Proof. reflexivity. Qed.

Example same_key_from_both_origins :
  exists htc wma key,
    add_log_htc [htc_example "x a1 a2 x"] = Ok [htc] /\
    add_log_wma [wma_example] = Ok [wma] /\
    item_url htc = Ok key /\ item_url wma = Ok key.
Proof. do 3 eexists. repeat split. Qed.

(** * The properties on a batch *)

Lemma merge_partition_witness :
  merge_dicts_by_url first_occ batch = Ok (batch_merged, batch_single) /\
  exists url_groups : dict (list value),
    group_by_url batch = Ok url_groups /\
    Permutation batch (flat_map snd url_groups) /\
    (forall k g k' g' r,
        In (k, g) url_groups -> In (k', g') url_groups ->
        In r g -> In r g' -> (k, g) = (k', g')) /\
    Forall2 (fun g m => 2 <= List.length (snd g) /\
                        exists d, merge_group first_occ [] (snd g) = Ok d /\
                                  m = wrap d)
            (filter big url_groups) batch_merged /\
    Forall2 (fun g s => snd g = [s]) (filter small url_groups) batch_single /\
    let folded := flat_map snd (filter big url_groups) in
    List.length folded + List.length batch_single = List.length batch /\
    Permutation batch (folded ++ batch_single) /\
    (forall r, In r folded -> ~ In r batch_single).
Proof.
  split; [reflexivity | ].
  apply (merge_partition first_occ batch batch_merged batch_single).
  reflexivity.
Defined.

Lemma merged_only_data_witness :
  merge_dicts_by_url first_occ batch = Ok (batch_merged, batch_single) /\
  Forall (fun m => exists d, m = VDict [(VStr "data", VDict d)]) batch_merged /\
  Forall (fun s => In s batch) batch_single /\
  (forall group group',
      map (fun r => getitem r "data") group = map (fun r => getitem r "data") group' ->
      merge_group first_occ [] group = merge_group first_occ [] group').
Proof.
  split; [reflexivity | ].
  apply (merged_only_data first_occ batch batch_merged batch_single).
  reflexivity.
Defined.

Lemma merge_order_witness :
  merge_dicts_by_url first_occ batch = Ok (batch_merged, batch_single) /\
  let keys := first_occ (map url_of batch) in
  let group k := filter (fun r => py_eqb k (url_of r)) batch in
  Forall (fun r => item_url r = Ok (url_of r)) batch /\
  Forall2 (fun k m => exists d, merge_group first_occ [] (group k) = Ok d /\
                                m = wrap d)
          (filter (fun k => 1 <? List.length (group k)) keys) batch_merged /\
  batch_single =
    filter (fun r => negb (1 <? List.length (group (url_of r)))) batch.
Proof.
  split; [reflexivity | ].
  apply (merge_order first_occ batch batch_merged batch_single).
  reflexivity.
Defined.

Lemma keyless_merged_witness :
  keyless rec_k1 = true /\
  forallb keyless [rec_k1; rec_k2] = true /\
  merge_dicts_by_url first_occ [rec_k1; rec_c; rec_k2] =
    Ok ([wrap [(VStr "x", VInt 1); (VStr "y", VInt 2)]], [rec_c]) /\
  2 <= List.length (filter keyless [rec_k1; rec_c; rec_k2]) /\
  item_url rec_k1 = Ok VNone /\
  group_by_url [rec_k1; rec_k2] = Ok [(VNone, [rec_k1; rec_k2])] /\
  group_by_url [rec_k1; rec_c; rec_k2] = Ok (groups_spec [rec_k1; rec_c; rec_k2]) /\
  let none_group :=
    filter (fun r => py_eqb VNone (url_of r)) [rec_k1; rec_c; rec_k2] in
  incl (filter keyless [rec_k1; rec_c; rec_k2]) none_group /\
  (exists d, merge_group first_occ [] none_group = Ok d /\
             In (wrap d) [wrap [(VStr "x", VInt 1); (VStr "y", VInt 2)]]) /\
  (forall r, In r none_group -> ~ In r [rec_c]).
Proof.
  destruct (keyless_merged first_occ) as [H1 [H2 [H3 H4]]].
  split; [reflexivity | ]. split; [reflexivity | ]. split; [reflexivity | ].
  split; [simpl; lia | ].
  split; [apply H1; reflexivity | ].
  split; [apply H2; reflexivity | ].
  split; [apply H3; reflexivity | ].
  apply (H4 [rec_k1; rec_c; rec_k2]); [reflexivity | simpl; lia].
Defined.

Lemma merged_fields_union_witness :
  merge_group first_occ [] [rec_a; rec_b] =
    Ok [(VStr "EOSLogURL", VStr "u"); (VStr "x", VInt 1); (VStr "y", VInt 2)] /\
  Forall (fun d => exists data, getitem d "data" = Ok (VDict data)) [rec_a; rec_b] /\
  forall field,
    dict_has [(VStr "EOSLogURL", VStr "u"); (VStr "x", VInt 1); (VStr "y", VInt 2)]
      field = true <->
    exists d data, In d [rec_a; rec_b] /\ getitem d "data" = Ok (VDict data) /\
                   dict_has data field = true.
Proof.
  split; [reflexivity | ].
  apply (merged_fields_union first_occ [rec_a; rec_b]).
  reflexivity.
Defined.

Lemma sequence_extended_witness :
  (forall l, forallb is_primitive l = true ->
             Permutation (first_occ l) (first_occ l)) /\
  dict_get [(VStr "f", VList [VStr "a"])] (VStr "f") = Some (VList [VStr "a"]) /\
  (exists out,
      merge_field first_occ [(VStr "f", VList [VStr "a"])] (VStr "f")
        (VList [VStr "a"; VStr "b"]) =
        Ok (dict_set [(VStr "f", VList [VStr "a"])] (VStr "f") (VList out)) /\
      Permutation out [VStr "a"; VStr "b"]) /\
  (exists f,
      merge_dicts_by_url first_occ [seq_r1 "u"; seq_r2 "u"] =
        Ok ([wrap [(VStr "f", VList f); (VStr "EOSLogURL", VStr "u")]], []) /\
      Permutation f [VStr "a"; VStr "b"]).
Proof.
  assert (Hset : forall l, forallb is_primitive l = true ->
                           Permutation (first_occ l) (first_occ l))
    by (intros l _; apply Permutation_refl).
  destruct (sequence_extended first_occ Hset) as [H1 H2].
  split; [exact Hset | ]. split; [reflexivity | ].
  split; [ | apply H2].
  apply (H1 [(VStr "f", VList [VStr "a"])] (VStr "f") [VStr "a"]
            (VList [VStr "a"; VStr "b"])).
  reflexivity.
Defined.

Lemma conflict_behaviour_witness :
  merge_field first_occ [(VStr "meta", VDict [(VStr "x", VInt 1)])] (VStr "meta")
    (VInt 1) = Raise TypeError /\
  merge_field first_occ [(VStr "meta", VDict [(VStr "x", VInt 1)])] (VStr "meta")
    (VStr "ab") = Raise ValueError /\
  merge_field first_occ [(VStr "meta", VInt 1)] (VStr "meta")
    (VDict [(VStr "x", VInt 1)]) =
    Ok [(VStr "meta", VDict [(VStr "x", VInt 1)])] /\
  is_ok (merge_dicts_by_url first_occ [conflict_mapping; conflict_scalar]) = false.
Proof.
  destruct (conflict_behaviour first_occ) as [H1 [H2 [_ [_ [H3 [_ H4]]]]]].
  split; [ | split; [ | split]].
  - apply (H1 _ _ [(VStr "x", VInt 1)]); reflexivity.
  - apply (H2 _ _ [(VStr "x", VInt 1)]); reflexivity.
  - apply (H3 [(VStr "meta", VInt 1)] (VStr "meta") (VInt 1)); reflexivity.
  - apply (H4 [conflict_mapping; conflict_scalar]
              [(VStr "u", [conflict_mapping; conflict_scalar])]
              (VStr "u", [conflict_mapping; conflict_scalar])).
    + reflexivity.
    + left. reflexivity.
    + reflexivity.
    + reflexivity.
Defined.

Lemma htc_key_written_witness :
  let source' :=
    VDict (dict_set (htc_source "x a1 a2 x") (VStr "data")
             (VDict (dict_set (htc_data "x a1 a2 x") (VStr "EOSLogURL")
                       (VStr (htc_key "/Task1" "sched1" "a1" "a2"))))) in
  htc_entry (htc_example "x a1 a2 x") = Ok source' /\
  item_url source' = Ok (VStr (htc_key "/Task1" "sched1" "a1" "a2")) /\
  add_log_htc [htc_example "x a1 a2 x"] = Ok [source'].
Proof.
  destruct htc_key_written as [H1 [H2 _]].
  destruct (H1 (htc_example "x a1 a2 x") (htc_source "x a1 a2 x")
              (htc_data "x a1 a2 x") "/Task1" "sched1" "x a1 a2 x"
              "x" "a1" "a2" ["x"] eq_refl eq_refl eq_refl eq_refl eq_refl eq_refl)
    as [Ha Hb].
  split; [exact Ha | ]. split; [exact Hb | ].
  apply H2. constructor; [exact Ha | constructor].
Defined.


Lemma missing_field_behaviour_witness :
  htc_entry htc_no_args = Raise (KeyError (VStr "Args")) /\
  wma_entry wma_no_task = Raise (KeyError (VStr "task")) /\
  is_ok (add_log_htc [htc_example "x a1 a2 x"; htc_no_args]) = false /\
  is_ok (add_log_wma [wma_example; wma_no_task]) = false.
Proof.
  destruct missing_field_behaviour as [H1 [H2 [_ [H3 H4]]]].
  split; [ | split; [ | split]].
  - eapply H1; reflexivity.
  - eapply H2; try reflexivity. left. reflexivity.
  - apply (H3 _ htc_no_args); [right; left; reflexivity | reflexivity].
  - apply (H4 _ wma_no_task); [right; left; reflexivity | reflexivity].
Defined.

(** * Further properties of the merger *)

Lemma dict_get_compat {A : Type} (d : dict A) (k k' : value) :
  py_eqb k k' = true -> dict_get d k = dict_get d k'.
Proof.
  intros H. induction d as [|[k0 v0] r IH]; simpl; auto.
  now rewrite (py_eqb_compat_r _ _ k0 H), IH.
Qed.

Lemma dict_get_set {A : Type} (d : dict A) (k k' : value) (v : A) :
  dict_get (dict_set d k v) k' =
  if py_eqb k k' then Some v else dict_get d k'.
Proof.
  induction d as [|[k0 v0] r IH]; simpl; auto.
  destruct (py_eqb k0 k) eqn:E; simpl.
  - rewrite (py_eqb_compat_l _ _ k' E). now destruct (py_eqb k k').
  - rewrite IH. destruct (py_eqb k k') eqn:E1; auto.
    destruct (py_eqb k0 k') eqn:E2; auto.
    rewrite py_eqb_sym in E1. rewrite (py_eqb_trans _ _ _ E2 E1) in E. discriminate.
Qed.

Lemma dict_get_has {A : Type} (d : dict A) (k : value) :
  dict_has d k = match dict_get d k with Some _ => true | None => false end.
Proof.
  unfold dict_has, dict_keys. induction d as [|[k0 v0] r IH]; simpl; auto.
  destruct (py_eqb k0 k); auto.
Qed.

Lemma dict_keys_set {A : Type} (d : dict A) (k : value) (v : A) :
  dict_keys (dict_set d k v) =
  if dict_has d k then dict_keys d else dict_keys d ++ [k].
Proof.
  unfold dict_has, dict_keys. induction d as [|[k0 v0] r IH]; simpl; auto.
  destruct (py_eqb k0 k) eqn:E; simpl; auto.
  rewrite IH. now destruct (existsb (fun x => py_eqb x k) (map fst r)).
Qed.

Section FieldFold.

Variable list_of_set : list value -> list value.

Lemma merge_field_get (merged merged' : dict value) (key v f : value) :
  merge_field list_of_set merged key v = Ok merged' ->
  if py_eqb key f
  then fold_field list_of_set (dict_get merged f) [v] = Ok (dict_get merged' f)
  else dict_get merged' f = dict_get merged f.
Proof.
  unfold merge_field. intros H.
  destruct (py_eqb key f) eqn:E.
  - rewrite <- (dict_get_compat merged _ _ E). simpl.
    destruct (dict_get merged key) as [existing|].
    + destruct (merge_value list_of_set existing v) as [new|e]; simpl in *;
        inversion H; subst. now rewrite dict_get_set, E.
    + inversion H; subst. now rewrite dict_get_set, E.
  - destruct (dict_get merged key) as [existing|].
    + destruct (merge_value list_of_set existing v) as [new|e]; simpl in *;
        inversion H; subst. now rewrite dict_get_set, E.
    + inversion H; subst. now rewrite dict_get_set, E.
Qed.

Lemma merge_items_get (its : dict value) (f : value) :
  forall merged merged',
    merge_items list_of_set merged its = Ok merged' ->
    fold_field list_of_set (dict_get merged f) (values_of f its) =
      Ok (dict_get merged' f).
Proof.
  unfold values_of.
  induction its as [|[key v] rest IH]; simpl; intros merged merged' H.
  - now inversion H.
  - destruct (merge_field list_of_set merged key v) as [m1|e] eqn:E; simpl in H;
      try discriminate.
    pose proof (merge_field_get _ _ _ _ f E) as Hf.
    destruct (py_eqb key f); simpl.
    + simpl in Hf. destruct (dict_get merged f) as [existing|].
      * destruct (merge_value list_of_set existing v) as [new|e]; simpl in *;
          try discriminate. inversion Hf as [Hn]. rewrite Hn. now apply IH.
      * inversion Hf as [Hn]. rewrite Hn. now apply IH.
    + rewrite <- Hf. now apply IH.
Qed.

Lemma merge_group_items (group : list value) :
  forall merged merged',
    merge_group list_of_set merged group = Ok merged' ->
    merge_items list_of_set merged (all_items group) = Ok merged'.
Proof.
  unfold all_items.
  induction group as [|d rest IH]; simpl; intros merged merged' H; auto.
  unfold data_items at 1.
  destruct (getitem d "data") as [data|e]; simpl in H; try discriminate.
  destruct data as [| | | | | |its]; simpl in H; try discriminate.
  rewrite merge_items_app.
  destruct (merge_items list_of_set merged its) as [m1|e]; simpl in *;
    try discriminate.
  now apply IH.
Qed.

End FieldFold.

Lemma distinct_keys_cons (x : value) (l : list value) :
  distinct_keys (x :: l) <->
  Forall (fun y => py_eqb x y = false) l /\ distinct_keys l.
Proof.
  unfold distinct_keys. split.
  - intros H. inversion H; subst. auto.
  - intros [H1 H2]. now constructor.
Qed.

Lemma distinct_keys_perm (l l' : list value) :
  Permutation l l' -> distinct_keys l -> distinct_keys l'.
Proof.
  induction 1 as [|x l l' HP IH|x y l|l l' l'' H1 IH1 H2 IH2]; auto.
  - rewrite !distinct_keys_cons. intros [Hx Hl]. split; auto.
    eapply Permutation_Forall; eauto.
  - rewrite !distinct_keys_cons. intros [Hy [Hx Hl]].
    inversion Hy as [|? ? Hyx Hyl]; subst.
    split; [constructor; auto; now rewrite py_eqb_sym | auto].
Qed.

Lemma first_occ_of_distinct (l : list value) :
  distinct_keys l -> first_occ l = l.
Proof.
  induction l as [|x l IH]; auto.
  rewrite distinct_keys_cons. intros [Hx Hl]. simpl. rewrite (IH Hl). f_equal.
  rewrite <- (filter_true l) at 2. apply filter_ext_in. intros y Hy.
  rewrite Forall_forall in Hx. now rewrite (Hx y Hy).
Qed.

Lemma first_occ_app (a b : list value) :
  first_occ (a ++ b) =
  first_occ a ++
  filter (fun y => negb (existsb (fun x => py_eqb x y) a)) (first_occ b).
Proof.
  induction a as [|x a IH]; simpl.
  - now rewrite filter_true.
  - rewrite IH, filter_app, filter_twice. do 2 f_equal.
    apply filter_ext. intros y. rewrite negb_orb. apply andb_comm.
Qed.

Lemma existsb_perm {A : Type} (f : A -> bool) (l l' : list A) :
  Permutation l l' -> existsb f l = existsb f l'.
Proof.
  intros HP. destruct (existsb f l') eqn:E.
  - apply existsb_exists in E. destruct E as [x [Hx Hf]].
    apply existsb_exists. exists x. split; auto.
    eapply Permutation_in; [symmetry; exact HP | exact Hx].
  - destruct (existsb f l) eqn:E'; auto.
    apply existsb_exists in E'. destruct E' as [x [Hx Hf]].
    rewrite <- E. symmetry. apply existsb_exists. exists x. split; auto.
    eapply Permutation_in; eauto.
Qed.

(** Extending a set by a list gives the set of the whole. *)
Lemma first_occ_extend (a x b : list value) :
  Permutation a (first_occ x) ->
  Permutation (first_occ (a ++ b)) (first_occ (x ++ b)).
Proof.
  intros HP. rewrite !first_occ_app.
  assert (Ha : first_occ a = a).
  { apply first_occ_of_distinct. eapply distinct_keys_perm.
    - symmetry. exact HP.
    - apply first_occ_distinct. }
  rewrite Ha.
  replace (filter (fun y => negb (existsb (fun x0 => py_eqb x0 y) a)) (first_occ b))
    with (filter (fun y => negb (existsb (fun x0 => py_eqb x0 y) x)) (first_occ b)).
  - now apply Permutation_app_tail.
  - apply filter_ext. intros y. f_equal.
    rewrite (existsb_perm _ _ _ HP). symmetry. apply first_occ_seen.
Qed.

Lemma first_occ_primitive (l : list value) :
  forallb is_primitive l = true -> forallb is_primitive (first_occ l) = true.
Proof.
  intros H. apply forallb_forall. intros y Hy.
  rewrite forallb_forall in H. apply H, first_occ_incl, Hy.
Qed.

Lemma forallb_perm {A : Type} (f : A -> bool) (l l' : list A) :
  Permutation l l' -> forallb f l = true -> forallb f l' = true.
Proof.
  intros HP H. apply forallb_forall. intros y Hy.
  rewrite forallb_forall in H. apply H.
  eapply Permutation_in; [symmetry; exact HP | exact Hy].
Qed.

Section FoldOfOneField.

Variable list_of_set : list value -> list value.

Lemma fold_field_scalars (vs : list value) (v : value) :
  forallb scalar_or_none vs = true ->
  forall acc,
    match acc with Some e => scalar_or_none e = true | None => True end ->
    fold_field list_of_set acc (vs ++ [v]) = Ok (Some v).
Proof.
  induction vs as [|x vs IH]; simpl; intros Hvs acc Hacc.
  - destruct acc as [e|]; auto. destruct e; try discriminate; reflexivity.
  - apply andb_true_iff in Hvs. destruct Hvs as [Hx Hvs].
    destruct acc as [e|].
    + assert (E : merge_value list_of_set e x = Ok x)
        by (destruct e; try discriminate; reflexivity).
      rewrite E. simpl. now apply IH.
    + now apply IH.
Qed.

Lemma fold_field_kept (rest : list value) :
  forall l,
    forallb is_primitive l = false ->
    fold_field list_of_set (Some (VList l)) rest =
      Ok (Some (VList (l ++ flat_map flatten rest))).
Proof.
  induction rest as [|v rest IH]; simpl; intros l Hl.
  - now rewrite app_nil_r.
  - fold (flatten v).
    assert (E : forallb is_primitive (l ++ flatten v) = false)
      by now rewrite forallb_app, Hl.
    rewrite E. rewrite (IH _ E). now rewrite <- app_assoc.
Qed.

Hypothesis list_of_set_perm :
  forall l, forallb is_primitive l = true ->
            Permutation (list_of_set l) (first_occ l).

Lemma fold_field_set (rest : list value) :
  forall a x,
    Permutation a (first_occ x) ->
    forallb is_primitive (x ++ flat_map flatten rest) = true ->
    exists out,
      fold_field list_of_set (Some (VList a)) rest = Ok (Some (VList out)) /\
      Permutation out (first_occ (x ++ flat_map flatten rest)).
Proof.
  induction rest as [|v rest IH]; simpl; intros a x Ha Hp.
  - exists a. now rewrite app_nil_r.
  - fold (flatten v).
    rewrite app_assoc in Hp. rewrite forallb_app in Hp.
    apply andb_true_iff in Hp. destruct Hp as [Hxv Hrest].
    assert (Hav : forallb is_primitive (a ++ flatten v) = true).
    { rewrite forallb_app in *. apply andb_true_iff in Hxv.
      destruct Hxv as [Hx Hv]. rewrite Hv, andb_true_r.
      apply (forallb_perm _ (first_occ x)); [now symmetry | ].
      now apply first_occ_primitive. }
    rewrite Hav.
    destruct (IH (list_of_set (a ++ flatten v)) (x ++ flatten v)) as [out [H1 H2]].
    + rewrite (list_of_set_perm _ Hav). now apply first_occ_extend.
    + now rewrite forallb_app, Hxv, Hrest.
    + exists out. split; auto. now rewrite app_assoc.
Qed.

End FoldOfOneField.

Section MergedFields.

Variable list_of_set : list value -> list value.

(** X1.  Fields are merged independently of each other: when the fold of
    a group completes, what the merged record holds under a field (or that
    it has no such field) is the merge rule applied along the values that
    the records of the group bind to that field, in the order of the
    fold. *)
Theorem fields_merged_independently (group : list value) (merged : dict value) :
  merge_group list_of_set [] group = Ok merged ->
  forall field,
    fold_field list_of_set None (values_of field (all_items group)) =
      Ok (dict_get merged field).
Proof.
  intros H field. apply merge_group_items in H.
  apply (merge_items_get list_of_set _ field) in H. exact H.
Qed.

(** X2.  Last write wins: when the values bound to a field before the
    last one are scalars or [None], the merged record holds the last
    value bound to the field, whatever that value is. *)
Theorem last_value_wins (group : list value) (merged : dict value)
  (field : value) (vs : list value) (v : value) :
  merge_group list_of_set [] group = Ok merged ->
  values_of field (all_items group) = vs ++ [v] ->
  forallb scalar_or_none vs = true ->
  dict_get merged field = Some v.
Proof.
  intros H Hvs Hsc. apply merge_group_items in H.
  apply (merge_items_get list_of_set _ field) in H.
  rewrite Hvs in H. simpl in H.
  rewrite (fold_field_scalars list_of_set vs v Hsc None I) in H.
  now inversion H.
Qed.

(** X3.  A sequence that holds an element other than a string or a number
    (a [None], a sequence, a mapping) is never made a set: when the first
    value bound to a field is such a sequence, the merged record holds it
    followed by all later values of the field, the elements of sequences
    one by one, in order and with their repetitions. *)
Theorem sequence_kept_in_order (group : list value) (merged : dict value)
  (field : value) (l rest : list value) :
  merge_group list_of_set [] group = Ok merged ->
  values_of field (all_items group) = VList l :: rest ->
  forallb is_primitive l = false ->
  dict_get merged field = Some (VList (l ++ flat_map flatten rest)).
Proof.
  intros H Hvs Hl. apply merge_group_items in H.
  apply (merge_items_get list_of_set _ field) in H.
  rewrite Hvs in H. simpl in H.
  rewrite (fold_field_kept list_of_set rest l Hl) in H.
  now inversion H.
Qed.

(** X5.  The fields of a merged record are in the order in which the fold
    first meets them, each once. *)
Theorem merged_fields_in_first_seen_order (group : list value) (merged : dict value) :
  merge_group list_of_set [] group = Ok merged ->
  dict_keys merged = first_occ (map fst (all_items group)) /\
  distinct_keys (dict_keys merged).
Proof.
  intros H. apply merge_group_items in H.
  assert (G : forall its m m' ks,
             merge_items list_of_set m its = Ok m' ->
             dict_keys m = first_occ ks ->
             dict_keys m' = first_occ (ks ++ map fst its)).
  { clear. induction its as [|[key v] rest IH]; simpl; intros m m' ks H Hk.
    - inversion H; subst. now rewrite app_nil_r.
    - destruct (merge_field list_of_set m key v) as [m1|e] eqn:E; simpl in H;
        try discriminate.
      replace (ks ++ key :: map fst rest) with ((ks ++ [key]) ++ map fst rest)
        by now rewrite <- app_assoc.
      apply (IH _ _ _ H).
      assert (Hm1 : dict_keys m1 =
                    if dict_has m key then dict_keys m else dict_keys m ++ [key]).
      { unfold merge_field in E. destruct (dict_get m key) as [existing|].
        - destruct (merge_value list_of_set existing v); simpl in E;
            inversion E. apply dict_keys_set.
        - inversion E. apply dict_keys_set. }
      rewrite Hm1, first_occ_snoc. unfold dict_has. rewrite Hk, first_occ_seen.
      now destruct (existsb (fun k => py_eqb k key) ks). }
  assert (E : dict_keys merged = first_occ (map fst (all_items group))).
  { apply (G _ [] merged [] H). reflexivity. }
  split; auto. rewrite E. apply first_occ_distinct.
Qed.

End MergedFields.

Section MergedSets.

Variable list_of_set : list value -> list value.

Hypothesis list_of_set_perm :
  forall l, forallb is_primitive l = true ->
            Permutation (list_of_set l) (first_occ l).

(** X4.  When two values or more are bound to a field, the first is a
    sequence and all elements met are strings or numbers, the merged
    record holds, in some order, one element of each class of equal
    elements of all of them. *)
Theorem sequences_merged_to_set (group : list value) (merged : dict value)
  (field : value) (l : list value) (v : value) (rest : list value) :
  merge_group list_of_set [] group = Ok merged ->
  values_of field (all_items group) = VList l :: v :: rest ->
  forallb is_primitive (l ++ flat_map flatten (v :: rest)) = true ->
  exists out,
    dict_get merged field = Some (VList out) /\
    Permutation out (first_occ (l ++ flat_map flatten (v :: rest))).
Proof.
  intros H Hvs Hp. apply merge_group_items in H.
  apply (merge_items_get list_of_set _ field) in H.
  rewrite Hvs in H. simpl in H. fold (flatten v) in H.
  simpl in Hp. rewrite app_assoc, forallb_app in Hp.
  apply andb_true_iff in Hp. destruct Hp as [Hlv Hrest].
  rewrite Hlv in H.
  destruct (fold_field_set list_of_set list_of_set_perm rest
              (list_of_set (l ++ flatten v)) (l ++ flatten v)) as [out [H1 H2]].
  - now apply list_of_set_perm.
  - now rewrite forallb_app, Hlv, Hrest.
  - rewrite H1 in H. inversion H as [E]. exists out. split; auto.
    simpl. now rewrite app_assoc.
Qed.

End MergedSets.

(** ** Sizes and records without a partner *)

Lemma distinct_keys_app (a b : list value) :
  distinct_keys (a ++ b) <->
  distinct_keys a /\ distinct_keys b /\
  forall x y, In x a -> In y b -> py_eqb x y = false.
Proof.
  induction a as [|k a IH]; simpl.
  - split.
    + intros H. repeat split; auto. constructor. intros x y [].
    + tauto.
  - rewrite !distinct_keys_cons, IH, Forall_app, !Forall_forall. split.
    + intros [[H1 H2] [H3 [H4 H5]]]. repeat split; auto.
      intros x y [<-|Hx] Hy; auto.
    + intros [[H1 H2] [H3 H4]]. repeat split; auto.
Qed.

Lemma append_group_new (gs : dict (list value)) (u x : value) :
  (forall k, In k (map fst gs) -> py_eqb k u = false) ->
  append_group gs u x = gs ++ [(u, [x])].
Proof.
  induction gs as [|[k g] r IH]; simpl; intros H; auto.
  rewrite (H k (or_introl eq_refl)). f_equal. apply IH. auto.
Qed.

Lemma group_loop_distinct (l : list value) :
  forall acc,
    forallb groupable l = true ->
    distinct_keys (map fst acc ++ map url_of l) ->
    group_loop l acc = Ok (acc ++ map (fun r => (url_of r, [r])) l).
Proof.
  induction l as [|x l IH]; simpl; intros acc Hg Hd.
  - now rewrite app_nil_r.
  - apply andb_true_iff in Hg. destruct Hg as [Hx Hl].
    destruct (item_url x) as [u|e] eqn:E;
      [ | unfold groupable in Hx; rewrite E in Hx; discriminate].
    destruct (item_url_ok _ _ E) as [Eu Eg]. rewrite Eg in Hx.
    rewrite Eu in *. simpl. rewrite Hx.
    rewrite append_group_new.
    + rewrite (IH _ Hl).
      * now rewrite <- app_assoc.
      * now rewrite map_app, <- app_assoc.
    + intros k Hk. apply distinct_keys_app in Hd. destruct Hd as [_ [_ Hd]].
      apply Hd; auto. now left.
Qed.

Lemma sizes_of_groups (gs : dict (list value)) :
  2 * List.length (filter big gs) + List.length (flat_map snd (filter small gs))
  <= List.length (flat_map snd gs).
Proof.
  induction gs as [|g r IH]; simpl; auto.
  unfold small at 1. rewrite length_app.
  destruct (big g) eqn:E; simpl.
  - unfold big in E. apply Nat.ltb_lt in E. lia.
  - rewrite length_app. lia.
Qed.

Lemma filter_big_small_length (gs : dict (list value)) :
  List.length (filter big gs) + List.length (filter small gs) = List.length gs.
Proof.
  induction gs as [|g r IH]; simpl; auto.
  unfold small at 1. destruct (big g); simpl; lia.
Qed.

Lemma singletons_length (gs : dict (list value)) :
  Forall (fun g => exists g0, snd g = [g0]) gs ->
  List.length (flat_map snd gs) = List.length gs.
Proof.
  induction 1 as [|g r [g0 Hg] Hr IH]; simpl; auto.
  rewrite length_app, Hg, IH. reflexivity.
Qed.

Section Sizes.

Variable list_of_set : list value -> list value.

Lemma process_singletons (l : list value) :
  forall m s,
    process_groups list_of_set (map (fun r => (url_of r, [r])) l) m s =
      Ok (m, s ++ l).
Proof.
  induction l as [|x l IH]; simpl; intros m s.
  - now rewrite app_nil_r.
  - rewrite IH. now rewrite <- app_assoc.
Qed.

(** X6.  Records without a partner pass through: when every record has a
    key that can be hashed and no two records have equal keys, the merger
    returns, merges nothing, and gives all records back unmatched, in the
    order of the input. *)
Theorem distinct_keys_pass_through (dict_list : list value) :
  forallb groupable dict_list = true ->
  distinct_keys (map url_of dict_list) ->
  merge_dicts_by_url list_of_set dict_list = Ok ([], dict_list).
Proof.
  intros Hg Hd. unfold merge_dicts_by_url, group_by_url.
  rewrite (group_loop_distinct dict_list [] Hg Hd). simpl.
  apply process_singletons.
Qed.

(** X7.  Whenever the merger returns, each merged record stands for two
    input records at least, so twice the number of merged records plus
    the number of unmatched ones is at most the number of input records;
    and there are as many output records as there are different keys. *)
Theorem output_sizes (dict_list merged_dicts single_entries : list value) :
  merge_dicts_by_url list_of_set dict_list = Ok (merged_dicts, single_entries) ->
  2 * List.length merged_dicts + List.length single_entries
    <= List.length dict_list /\
  List.length merged_dicts + List.length single_entries =
    List.length (first_occ (map url_of dict_list)).
Proof.
  intros H. apply merge_dicts_by_url_ok in H.
  destruct H as [Hg [_ [ds [Hds [-> [-> Hs]]]]]].
  rewrite length_map, <- (Forall2_length Hds).
  split.
  - rewrite (Permutation_length (groups_spec_perm _ Hg)). apply sizes_of_groups.
  - rewrite (singletons_length _ Hs), filter_big_small_length.
    unfold groups_spec. apply length_map.
Qed.

End Sizes.

(** ** The key of a merged record *)

Lemma values_of_app (f : value) (a b : dict value) :
  values_of f (a ++ b) = values_of f a ++ values_of f b.
Proof. unfold values_of. now rewrite filter_app, map_app. Qed.

Lemma values_of_distinct (f : value) (its : dict value) :
  distinct_keys (dict_keys its) ->
  values_of f its = match dict_get its f with Some v => [v] | None => [] end.
Proof.
  unfold values_of, dict_keys.
  induction its as [|[k0 v0] r IH]; simpl; auto.
  rewrite distinct_keys_cons. intros [Hk Hr].
  destruct (py_eqb k0 f) eqn:E; simpl; auto.
  f_equal. replace (filter (fun kv => py_eqb (fst kv) f) r) with (@nil (value * value));
    auto.
  symmetry. rewrite <- (filter_false r). apply filter_ext_in.
  intros [k1 v1] Hin. simpl.
  rewrite Forall_forall in Hk.
  assert (H1 : py_eqb k0 k1 = false) by (apply Hk, in_map_iff; now exists (k1, v1)).
  rewrite (py_eqb_compat_l _ _ k1 E), py_eqb_sym in H1. exact H1.
Qed.

Lemma url_of_data_items (r : value) :
  groupable r = true ->
  url_of r = match dict_get (data_items r) (VStr "EOSLogURL") with
             | Some u => u
             | None => VNone
             end.
Proof.
  unfold groupable, url_of, item_url, data_items.
  destruct (getitem r "data") as [data|e]; simpl; try discriminate.
  destruct data; simpl; try discriminate.
  now destruct (dict_get d (VStr "EOSLogURL")).
Qed.

Lemma group_url_values (k : value) (g : list value) :
  Forall (fun r => groupable r = true /\ well_formed r /\
                   py_eqb k (url_of r) = true) g ->
  Forall (fun v => py_eqb k v = true /\ hashable v = true)
         (values_of (VStr "EOSLogURL") (all_items g)) /\
  (values_of (VStr "EOSLogURL") (all_items g) = [] -> g <> [] ->
   py_eqb k VNone = true).
Proof.
  unfold all_items.
  induction 1 as [|r g [Hg [Hw Hk]] Hrest [IH1 IH2]]; simpl.
  - split; [constructor | intros _ H; now destruct H].
  - rewrite values_of_app, (values_of_distinct _ _ Hw).
    pose proof (url_of_data_items r Hg) as Hu.
    apply groupable_hashable in Hg.
    destruct (dict_get (data_items r) (VStr "EOSLogURL")) as [u|]; simpl.
    + rewrite Hu in *. split; [constructor; auto | discriminate].
    + split; auto. intros _ _. now rewrite <- Hu.
Qed.

Lemma snoc_cases {A : Type} (l : list A) :
  l = [] \/ exists l' x, l = l' ++ [x].
Proof. induction l using rev_ind; eauto. Qed.

Section MergedKey.

Variable list_of_set : list value -> list value.

(** The merged record of a group can be grouped again, under a key equal
    to that of the group. *)
Lemma merged_key (k : value) (g : list value) (m : dict value) :
  g <> [] ->
  Forall (fun r => groupable r = true /\ well_formed r /\
                   py_eqb k (url_of r) = true) g ->
  merge_group list_of_set [] g = Ok m ->
  groupable (wrap m) = true /\ py_eqb k (url_of (wrap m)) = true.
Proof.
  intros Hne Hg H. apply merge_group_items in H.
  apply (merge_items_get list_of_set _ (VStr "EOSLogURL")) in H.
  destruct (group_url_values k g Hg) as [Hv Hnil].
  assert (Hw : forall x, dict_get m (VStr "EOSLogURL") = x ->
                         groupable (wrap m) = hashable (match x with Some u => u | None => VNone end) /\
                         url_of (wrap m) = match x with Some u => u | None => VNone end).
  { intros x <-. unfold groupable, url_of, item_url, wrap. simpl.
    now destruct (dict_get m (VStr "EOSLogURL")). }
  destruct (snoc_cases (values_of (VStr "EOSLogURL") (all_items g)))
    as [E | [l [x E]]]; rewrite E in *.
  - simpl in H. inversion H as [Hm]. symmetry in Hm.
    destruct (Hw _ Hm) as [-> ->]. split; auto.
  - apply Forall_app in Hv. destruct Hv as [Hl Hx].
    inversion Hx as [|? ? [Hkx Hhx] _]; subst.
    rewrite fold_field_scalars in H.
    + inversion H as [Hm]. symmetry in Hm.
      destruct (Hw _ Hm) as [-> ->]. auto.
    + apply forallb_forall. intros y Hy. rewrite Forall_forall in Hl.
      destruct (Hl y Hy) as [_ Hh]. destruct y; auto; discriminate.
    + exact I.
Qed.

End MergedKey.

Lemma filter_split_perm {A : Type} (f : A -> bool) (l : list A) :
  Permutation (filter f l ++ filter (fun a => negb (f a)) l) l.
Proof.
  induction l as [|a l IH]; simpl; auto.
  destruct (f a); simpl.
  - now apply perm_skip.
  - rewrite <- Permutation_middle. now apply perm_skip.
Qed.

Lemma distinct_keys_along (ks os : list value) :
  Forall2 (fun k o => py_eqb k o = true) ks os ->
  distinct_keys ks -> distinct_keys os.
Proof.
  induction 1 as [|k o ks os Hko Hrest IH]; auto.
  rewrite !distinct_keys_cons. intros [Hk Hd]. split; auto.
  clear IH Hd. induction Hrest as [|k' o' ks os Hko' Hrest IH]; constructor.
  - inversion Hk as [|? ? Hkk' _]; subst.
    destruct (py_eqb o o') eqn:E; auto.
    rewrite <- Hkk'. symmetry. rewrite py_eqb_sym in Hko'.
    eapply py_eqb_trans; [exact Hko | ]. eapply py_eqb_trans; eauto.
  - apply IH. now inversion Hk.
Qed.

Lemma groups_spec_members (l : list value) :
  forallb groupable l = true ->
  Forall well_formed l ->
  Forall (fun g => Forall (fun r => groupable r = true /\ well_formed r /\
                                    py_eqb (fst g) (url_of r) = true) (snd g))
         (groups_spec l).
Proof.
  intros Hg Hw. apply Forall_forall. intros [k g] Hin.
  apply groups_spec_in in Hin. destruct Hin as [_ ->]. simpl.
  apply Forall_forall. intros r Hr. apply members_in in Hr.
  destruct Hr as [Hr Hk]. rewrite forallb_forall in Hg.
  rewrite Forall_forall in Hw. auto.
Qed.

Section Stable.

Variable list_of_set : list value -> list value.

Lemma merged_keys (gs : dict (list value)) (ds : list (dict value)) :
  Forall (fun g => Forall (fun r => groupable r = true /\ well_formed r /\
                                    py_eqb (fst g) (url_of r) = true) (snd g)) gs ->
  Forall (fun g => big g = true) gs ->
  Forall2 (fun g d => merge_group list_of_set [] (snd g) = Ok d) gs ds ->
  Forall2 (fun g o => groupable o = true /\ py_eqb (fst g) (url_of o) = true)
          gs (map wrap ds).
Proof.
  intros Hm Hb H. induction H as [|g d gs ds Hd Hrest IH]; simpl; auto.
  inversion Hm; subst. inversion Hb as [|? ? Hbig Hb']; subst.
  constructor; auto.
  apply (merged_key list_of_set (fst g) (snd g)); auto.
  unfold big in Hbig. destruct (snd g); [discriminate | congruence].
Qed.

Lemma single_keys (gs : dict (list value)) :
  Forall (fun g => Forall (fun r => groupable r = true /\ well_formed r /\
                                    py_eqb (fst g) (url_of r) = true) (snd g)) gs ->
  Forall (fun g => exists g0, snd g = [g0]) gs ->
  Forall2 (fun g o => groupable o = true /\ py_eqb (fst g) (url_of o) = true)
          gs (flat_map snd gs).
Proof.
  intros Hm Hs. induction Hs as [|g gs [g0 Hg0] Hrest IH]; simpl; auto.
  inversion Hm as [|? ? Hg Hm']; subst. rewrite Hg0 in *. simpl.
  inversion Hg as [|? ? [H1 [_ H2]] _]; subst. constructor; auto.
Qed.

Lemma output_keys (l merged single : list value) :
  merge_dicts_by_url list_of_set l = Ok (merged, single) ->
  Forall well_formed l ->
  Forall2 (fun g o => groupable o = true /\ py_eqb (fst g) (url_of o) = true)
          (filter big (groups_spec l)) merged /\
  Forall2 (fun g o => groupable o = true /\ py_eqb (fst g) (url_of o) = true)
          (filter small (groups_spec l)) single.
Proof.
  intros H Hw. apply merge_dicts_by_url_ok in H.
  destruct H as [Hg [_ [ds [Hds [-> [-> Hs]]]]]].
  pose proof (groups_spec_members l Hg Hw) as Hm.
  assert (Hf : forall f, Forall (fun g => Forall (fun r => groupable r = true /\
                 well_formed r /\ py_eqb (fst g) (url_of r) = true) (snd g))
                 (filter f (groups_spec l))).
  { intros f. apply Forall_forall. intros g Hin. apply filter_In in Hin.
    rewrite Forall_forall in Hm. apply Hm, Hin. }
  split.
  - apply merged_keys; auto.
    apply Forall_forall. intros g Hin. apply filter_In in Hin. tauto.
  - apply single_keys; auto.
Qed.

(** X8.  Whenever the merger returns on records whose [data] has no field
    twice, each merged record can itself be grouped, under a key equal to
    the key of the group it was folded from: its [EOSLogURL] is the last
    one bound in the group, and it has none only in the group of
    [None]. *)
Theorem merged_record_keeps_key (dict_list merged_dicts single_entries : list value) :
  merge_dicts_by_url list_of_set dict_list = Ok (merged_dicts, single_entries) ->
  Forall well_formed dict_list ->
  let keys := first_occ (map url_of dict_list) in
  let group k := filter (fun r => py_eqb k (url_of r)) dict_list in
  Forall2 (fun k m => item_url m = Ok (url_of m) /\
                      hashable (url_of m) = true /\
                      py_eqb k (url_of m) = true)
          (filter (fun k => 1 <? List.length (group k)) keys) merged_dicts.
Proof.
  intros H Hw keys group. destruct (output_keys _ _ _ H Hw) as [Hm _].
  apply (Forall2_filter_map _ (fun k => (k, members dict_list k)) big) in Hm.
  eapply Forall2_impl; [ | exact Hm].
  intros k m [Hg Hk]. simpl in Hk. split; [ | split]; auto.
  - unfold groupable in Hg. unfold url_of.
    destruct (item_url m); auto; discriminate.
  - now apply groupable_hashable.
Qed.

(** X9.  The output of the merger is stable: whenever the merger returns
    on records whose [data] has no field twice, merging its two outputs
    again returns, merges nothing and gives them back unmatched. *)
Theorem merge_stable (dict_list merged_dicts single_entries : list value) :
  merge_dicts_by_url list_of_set dict_list = Ok (merged_dicts, single_entries) ->
  Forall well_formed dict_list ->
  merge_dicts_by_url list_of_set (merged_dicts ++ single_entries) =
    Ok ([], merged_dicts ++ single_entries).
Proof.
  intros H Hw. destruct (output_keys _ _ _ H Hw) as [Hm Hs].
  pose proof (Forall2_app Hm Hs) as Ha.
  set (outs := merged_dicts ++ single_entries) in *.
  set (gs := filter big (groups_spec dict_list) ++
             filter small (groups_spec dict_list)) in *.
  assert (Hg : forallb groupable outs = true).
  { apply forallb_forall. intros o Ho.
    clear -Ha Ho. induction Ha as [|g o' gs' os [H1 _] Hrest IH]; simpl in Ho.
    - destruct Ho.
    - destruct Ho as [<-|Ho]; auto. }
  assert (Hd : distinct_keys (map url_of outs)).
  { apply (distinct_keys_along (map fst gs)).
    - clear -Ha. induction Ha as [|g o gs' os [_ H2] Hrest IH]; simpl; auto.
    - apply (distinct_keys_perm (map fst (groups_spec dict_list))).
      + apply Permutation_map. symmetry. apply filter_split_perm.
      + unfold groups_spec. rewrite map_map. simpl. rewrite map_id.
        apply first_occ_distinct. }
  unfold merge_dicts_by_url, group_by_url.
  rewrite (group_loop_distinct outs [] Hg Hd). simpl.
  apply process_singletons.
Qed.

End Stable.

(** * Further properties of key derivation *)

Lemma getitem_ok (v : value) (k : string) (x : value) :
  getitem v k = Ok x -> exists d, v = VDict d /\ dict_get d (VStr k) = Some x.
Proof.
  destruct v; simpl; try discriminate.
  destruct (dict_get d (VStr k)) eqn:E; intros H; inversion H; subst. eauto.
Qed.

Lemma str_add_ok (s : string) (b r : value) :
  str_add (VStr s) b = Ok r -> exists t, b = VStr t /\ r = VStr (s ++ t).
Proof.
  destruct b; simpl; try discriminate. intros H. inversion H. eauto.
Qed.

Lemma index_ok (l : list string) (i : nat) (x : value) :
  index l i = Ok x -> exists s, nth_error l i = Some s /\ x = VStr s.
Proof.
  unfold index. destruct (nth_error l i); intros H; inversion H. eauto.
Qed.

Ltac step_bind H x E :=
  match type of H with
  | bind ?m _ = Ok _ =>
      destruct m as [x|] eqn:E; cbn [bind] in H; [ | discriminate]
  end.

(** What a record must be for HTC derivation to return, and what is
    returned. *)
Lemma htc_entry_inv (entry s : value) :
  htc_entry entry = Ok s ->
  exists source data name schedd args a0 a1 a2 rest,
    getitem entry "_source" = Ok (VDict source) /\
    dict_get source (VStr "data") = Some (VDict data) /\
    dict_get data (VStr "WMAgent_SubTaskName") = Some (VStr name) /\
    dict_get data (VStr "ScheddName") = Some (VStr schedd) /\
    dict_get data (VStr "Args") = Some (VStr args) /\
    split_on " " args = a0 :: a1 :: a2 :: rest /\
    s = VDict (dict_set source (VStr "data")
                 (VDict (dict_set data (VStr "EOSLogURL")
                           (VStr (htc_key name schedd a1 a2))))).
Proof.
  unfold htc_entry. intros H.
  step_bind H src Es. destruct (getitem_ok _ _ _ Es) as [d0 [-> _]].
  step_bind H dat Ed. destruct (getitem_ok _ _ _ Ed) as [source [-> Hd]].
  step_bind H arg Ea. destruct (getitem_ok _ _ _ Ea) as [data [-> Ha]].
  step_bind H args Esp. destruct arg as [| | | |args0| |]; simpl in Esp;
    try discriminate.
  inversion Esp; subst args; clear Esp.
  step_bind H nm En. destruct (getitem_ok _ _ _ En) as [data' [Hdd Hn]].
  inversion Hdd; subst data'; clear Hdd.
  step_bind H u1 E1. destruct (str_add_ok _ _ _ E1) as [name [-> ->]].
  step_bind H u2 E2. inversion E2; subst u2; clear E2.
  step_bind H sc Esc. destruct (getitem_ok _ _ _ Esc) as [data' [Hdd Hs]].
  inversion Hdd; subst data'; clear Hdd.
  step_bind H u3 E3. destruct (str_add_ok _ _ _ E3) as [schedd [-> ->]].
  step_bind H u4 E4. inversion E4; subst u4; clear E4.
  step_bind H x1 Ex1. destruct (index_ok _ _ _ Ex1) as [f1 [Hx1 ->]].
  step_bind H u5 E5. inversion E5; subst u5; clear E5.
  step_bind H u6 E6. inversion E6; subst u6; clear E6.
  step_bind H x2 Ex2. destruct (index_ok _ _ _ Ex2) as [f2 [Hx2 ->]].
  step_bind H u7 E7. inversion E7; subst u7; clear E7.
  step_bind H u8 E8. inversion E8; subst u8; clear E8.
  step_bind H dat' E9. inversion E9; subst dat'; clear E9.
  inversion H; subst; clear H.
  destruct (split_on " " args0) as [|g0 [|g1 [|g2 rest]]] eqn:Esp; try discriminate.
  simpl in Hx1, Hx2. inversion Hx1; inversion Hx2; subst.
  exists source, data, name, schedd, args0, g0, f1, f2, rest.
  repeat split; auto.
  unfold htc_key. now rewrite !append_assoc.
Qed.

(** What a record must be for WMA derivation to return, and what is
    returned. *)
Lemma wma_entry_inv (entry s : value) :
  wma_entry entry = Ok s ->
  exists source data,
    getitem entry "_source" = Ok (VDict source) /\
    dict_get source (VStr "data") = Some (VDict data) /\
    ((exists url,
         dict_get data (VStr "EOSLogURL") = Some url /\ url <> VStr "" /\
         s = VDict source) \/
     (exists task meta host fwjr_id,
         (dict_get data (VStr "EOSLogURL") = None \/
          dict_get data (VStr "EOSLogURL") = Some (VStr "")) /\
         dict_get data (VStr "task") = Some (VStr task) /\
         dict_get data (VStr "meta_data") = Some (VDict meta) /\
         dict_get meta (VStr "host") = Some (VStr host) /\
         dict_get meta (VStr "fwjr_id") = Some (VStr fwjr_id) /\
         s = VDict (dict_set source (VStr "data")
                      (VDict (dict_set data (VStr "EOSLogURL")
                                (VStr (wma_key task host fwjr_id))))))).
Proof.
  unfold wma_entry. intros H.
  step_bind H src Es. destruct (getitem_ok _ _ _ Es) as [d0 [-> _]].
  step_bind H dat Ed. destruct (getitem_ok _ _ _ Ed) as [source [-> Hd]].
  step_bind H url Eu.
  destruct dat as [| | | | | |data]; simpl in Eu; try discriminate.
  exists source, data. split; auto. split; auto.
  destruct (py_eqb url (VStr "")) eqn:Eq.
  - right. apply py_eqb_str in Eq. subst url.
    assert (Hu : dict_get data (VStr "EOSLogURL") = None \/
                 dict_get data (VStr "EOSLogURL") = Some (VStr "")).
    { destruct (dict_get data (VStr "EOSLogURL")); inversion Eu; auto. }
    clear Eu.
    step_bind H tk Et. destruct (getitem_ok _ _ _ Et) as [data' [Hdd Ht]].
    inversion Hdd; subst data'; clear Hdd.
    step_bind H u1 E1. destruct (str_add_ok _ _ _ E1) as [task [-> ->]].
    step_bind H u2 E2. inversion E2; subst u2; clear E2.
    step_bind H mt Em. destruct (getitem_ok _ _ _ Em) as [data' [Hdd Hm]].
    inversion Hdd; subst data'; clear Hdd.
    step_bind H hs Eh. destruct (getitem_ok _ _ _ Eh) as [meta [-> Hh]].
    step_bind H u3 E3. destruct (str_add_ok _ _ _ E3) as [host [-> ->]].
    step_bind H u4 E4. inversion E4; subst u4; clear E4.
    step_bind H fw Ef. destruct (getitem_ok _ _ _ Ef) as [meta' [Hmm Hf]].
    inversion Hmm; subst meta'; clear Hmm.
    step_bind H u5 E5. destruct (str_add_ok _ _ _ E5) as [fwjr [-> ->]].
    step_bind H u6 E6. inversion E6; subst u6; clear E6.
    step_bind H dat' E7. inversion E7; subst dat'; clear E7.
    inversion H; subst; clear H.
    exists task, meta, host, fwjr. repeat split; auto.
    unfold wma_key. now rewrite !append_assoc.
  - left. inversion H; subst; clear H. exists url. split; [ | split]; auto.
    + destruct (dict_get data (VStr "EOSLogURL")); inversion Eu; subst; auto.
      simpl in Eq. discriminate.
    + intros ->. simpl in Eq. discriminate.
Qed.

Lemma htc_entry_intro (entry : value) (source data : dict value)
  (name schedd args a0 a1 a2 : string) (rest : list string) :
  getitem entry "_source" = Ok (VDict source) ->
  dict_get source (VStr "data") = Some (VDict data) ->
  dict_get data (VStr "WMAgent_SubTaskName") = Some (VStr name) ->
  dict_get data (VStr "ScheddName") = Some (VStr schedd) ->
  dict_get data (VStr "Args") = Some (VStr args) ->
  split_on " " args = a0 :: a1 :: a2 :: rest ->
  htc_entry entry =
    Ok (VDict (dict_set source (VStr "data")
                 (VDict (dict_set data (VStr "EOSLogURL")
                           (VStr (htc_key name schedd a1 a2)))))).
Proof.
  intros Hs Hd Hn Hsc Ha Hsp.
  unfold htc_entry. rewrite Hs. simpl. rewrite Hd. simpl. rewrite Ha. simpl.
  rewrite Hsp, Hn. simpl. rewrite Hsc. simpl.
  unfold htc_key. now rewrite !append_assoc.
Qed.

Lemma wma_entry_kept (entry : value) (source data : dict value) (url : value) :
  getitem entry "_source" = Ok (VDict source) ->
  dict_get source (VStr "data") = Some (VDict data) ->
  dict_get data (VStr "EOSLogURL") = Some url ->
  url <> VStr "" ->
  wma_entry entry = Ok (VDict source).
Proof.
  intros Hs Hd Hu Hne.
  unfold wma_entry. rewrite Hs. simpl. rewrite Hd. simpl. rewrite Hu. simpl.
  destruct (py_eqb url (VStr "")) eqn:E; auto.
  apply py_eqb_str in E. contradiction.
Qed.

Lemma wma_entry_intro (entry : value) (source data meta : dict value)
  (task host fwjr_id : string) :
  getitem entry "_source" = Ok (VDict source) ->
  dict_get source (VStr "data") = Some (VDict data) ->
  dict_get data (VStr "EOSLogURL") = None \/
  dict_get data (VStr "EOSLogURL") = Some (VStr "") ->
  dict_get data (VStr "task") = Some (VStr task) ->
  dict_get data (VStr "meta_data") = Some (VDict meta) ->
  dict_get meta (VStr "host") = Some (VStr host) ->
  dict_get meta (VStr "fwjr_id") = Some (VStr fwjr_id) ->
  wma_entry entry =
    Ok (VDict (dict_set source (VStr "data")
                 (VDict (dict_set data (VStr "EOSLogURL")
                           (VStr (wma_key task host fwjr_id)))))).
Proof.
  intros Hs Hd Hu Ht Hm Hh Hf.
  unfold wma_entry. rewrite Hs. simpl. rewrite Hd. simpl.
  assert (E : bind (match dict_get data (VStr "EOSLogURL") with
                    | Some x => Ok x
                    | None => Ok (VStr "")
                    end)
                (fun url => Ok (py_eqb url (VStr ""))) = Ok true).
  { destruct Hu as [-> | ->]; reflexivity. }
  destruct (dict_get data (VStr "EOSLogURL")) as [u|]; simpl in *;
    inversion E as [E']; rewrite ?E';
    rewrite Ht; simpl; rewrite Hm; simpl; rewrite Hh; simpl; rewrite Hf; simpl;
    unfold wma_key; now rewrite !append_assoc.
Qed.

Lemma keyless_written (source data : dict value) (url : value) :
  keyless (VDict (dict_set source (VStr "data")
                    (VDict (dict_set data (VStr "EOSLogURL") url)))) = false.
Proof.
  unfold keyless, getitem. rewrite dict_get_set_same by reflexivity.
  now rewrite dict_get_set_same by reflexivity.
Qed.

(** X10.  HTC derivation returns for a record exactly when its [_source]
    is a mapping whose [data] is a mapping that binds
    [WMAgent_SubTaskName], [ScheddName] and [Args] to strings and [Args]
    has three fields or more between single spaces; what is returned is
    [_source] with the key written to [EOSLogURL] of its [data]. *)
Theorem htc_entry_returns_iff (entry s : value) :
  htc_entry entry = Ok s <->
  exists source data name schedd args a0 a1 a2 rest,
    getitem entry "_source" = Ok (VDict source) /\
    dict_get source (VStr "data") = Some (VDict data) /\
    dict_get data (VStr "WMAgent_SubTaskName") = Some (VStr name) /\
    dict_get data (VStr "ScheddName") = Some (VStr schedd) /\
    dict_get data (VStr "Args") = Some (VStr args) /\
    split_on " " args = a0 :: a1 :: a2 :: rest /\
    s = VDict (dict_set source (VStr "data")
                 (VDict (dict_set data (VStr "EOSLogURL")
                           (VStr (htc_key name schedd a1 a2))))).
Proof.
  split; [apply htc_entry_inv | ].
  intros [source [data [name [schedd [args [a0 [a1 [a2 [rest H]]]]]]]]].
  destruct H as [Hs [Hd [Hn [Hsc [Ha [Hsp ->]]]]]].
  eapply htc_entry_intro; eauto.
Qed.

(** X11.  WMA derivation returns for a record exactly when its [_source]
    is a mapping whose [data] is a mapping and either [data] binds
    [EOSLogURL] to something other than the empty string, and then
    [_source] is returned as it is, or [EOSLogURL] is absent or empty and
    [data] binds [task] to a string and [meta_data] to a mapping that
    binds [host] and [fwjr_id] to strings, and then [_source] is returned
    with the key written. *)
Theorem wma_entry_returns_iff (entry s : value) :
  wma_entry entry = Ok s <->
  exists source data,
    getitem entry "_source" = Ok (VDict source) /\
    dict_get source (VStr "data") = Some (VDict data) /\
    ((exists url,
         dict_get data (VStr "EOSLogURL") = Some url /\ url <> VStr "" /\
         s = VDict source) \/
     (exists task meta host fwjr_id,
         (dict_get data (VStr "EOSLogURL") = None \/
          dict_get data (VStr "EOSLogURL") = Some (VStr "")) /\
         dict_get data (VStr "task") = Some (VStr task) /\
         dict_get data (VStr "meta_data") = Some (VDict meta) /\
         dict_get meta (VStr "host") = Some (VStr host) /\
         dict_get meta (VStr "fwjr_id") = Some (VStr fwjr_id) /\
         s = VDict (dict_set source (VStr "data")
                      (VDict (dict_set data (VStr "EOSLogURL")
                                (VStr (wma_key task host fwjr_id))))))).
Proof.
  split; [apply wma_entry_inv | ].
  intros [source [data [Hs [Hd Hcase]]]].
  destruct Hcase as [[url [Hu [Hne ->]]] |
                     [task [meta [host [fwjr [Hu [Ht [Hm [Hh [Hf ->]]]]]]]]]].
  - eapply wma_entry_kept; eauto.
  - eapply wma_entry_intro; eauto.
Qed.

(** X12.  When [add_log_htc] returns, it returns one record for each
    record of the batch, and each of them has in its [data] an
    [EOSLogURL] that is a string beginning with the URL prefix and ending
    in "-log.tar.gz". *)
Theorem htc_records_keyed (data result : list value) :
  add_log_htc data = Ok result ->
  List.length result = List.length data /\
  Forall (fun s => keyless s = false /\
                   exists middle,
                     item_url s = Ok (VStr (url_prefix ++ middle ++ url_suffix)))
         result.
Proof.
  unfold add_log_htc. intros H. apply add_log_htc_loop_ok in H.
  destruct H as [sources [H ->]]. simpl. split.
  - symmetry. apply (Forall2_length H).
  - induction H as [|entry s data' res Hs Hrest IH]; constructor; auto.
    apply htc_entry_inv in Hs.
    destruct Hs as [source [dat [name [schedd [args [a0 [a1 [a2 [rest Hs]]]]]]]]].
    destruct Hs as [_ [_ [_ [_ [_ [_ ->]]]]]].
    split; [apply keyless_written | ].
    exists (name ++ "/" ++ schedd ++ "-" ++ a1 ++ "-" ++ a2)%string.
    rewrite item_url_written. unfold htc_key. now rewrite !append_assoc.
Qed.

(** X13.  When [add_log_wma] returns, it returns one record for each
    record of the batch, and each of them has in its [data] an
    [EOSLogURL] that is not the empty string. *)
Theorem wma_records_keyed (data result : list value) :
  add_log_wma data = Ok result ->
  List.length result = List.length data /\
  Forall (fun s => keyless s = false /\
                   exists url, item_url s = Ok url /\ url <> VStr "")
         result.
Proof.
  unfold add_log_wma. intros H. apply add_log_wma_loop_ok in H.
  destruct H as [sources [H ->]]. simpl. split.
  - symmetry. apply (Forall2_length H).
  - induction H as [|entry s data' res Hs Hrest IH]; constructor; auto.
    apply wma_entry_inv in Hs.
    destruct Hs as [source [dat [_ [Hd Hcase]]]].
    destruct Hcase as [[url [Hu [Hne ->]]] |
                       [task [meta [host [fwjr [_ [_ [_ [_ [_ ->]]]]]]]]]].
    + split.
      * unfold keyless, getitem. rewrite Hd. now rewrite Hu.
      * exists url. split; auto. unfold item_url, getitem, get.
        rewrite Hd. simpl. now rewrite Hu.
    + split; [apply keyless_written | ].
      eexists. split; [apply item_url_written | ]. discriminate.
Qed.

Lemma dict_set_set {A : Type} (d : dict A) (k : value) (v v' : A) :
  hashable k = true -> dict_set (dict_set d k v) k v' = dict_set d k v'.
Proof.
  intros Hk. induction d as [|[k0 v0] r IH]; simpl.
  - now rewrite py_eqb_refl.
  - destruct (py_eqb k0 k) eqn:E; simpl; rewrite E; congruence.
Qed.

Lemma dict_set_same {A : Type} (d : dict A) (k : value) (v : A) :
  dict_get d k = Some v -> dict_set d k v = d.
Proof.
  induction d as [|[k0 v0] r IH]; simpl; try discriminate.
  destruct (py_eqb k0 k); intros H.
  - now inversion H.
  - now rewrite IH.
Qed.

(** X14.  How HTC derivation fails on a record whose [data] is a mapping:
    with [Args] bound to something that is not a string it raises
    [AttributeError]; with a sub-task name or, after it, a schedd name
    that is not a string, [TypeError]; with strings for these and an
    [Args] of fewer than three fields, [IndexError]. *)
Theorem htc_entry_raises (entry : value) (source data : dict value) :
  getitem entry "_source" = Ok (VDict source) ->
  dict_get source (VStr "data") = Some (VDict data) ->
  (forall a,
      dict_get data (VStr "Args") = Some a -> is_string a = false ->
      htc_entry entry = Raise AttributeError) /\
  (forall args n,
      dict_get data (VStr "Args") = Some (VStr args) ->
      dict_get data (VStr "WMAgent_SubTaskName") = Some n -> is_string n = false ->
      htc_entry entry = Raise TypeError) /\
  (forall args name sc,
      dict_get data (VStr "Args") = Some (VStr args) ->
      dict_get data (VStr "WMAgent_SubTaskName") = Some (VStr name) ->
      dict_get data (VStr "ScheddName") = Some sc -> is_string sc = false ->
      htc_entry entry = Raise TypeError) /\
  (forall args name schedd,
      dict_get data (VStr "Args") = Some (VStr args) ->
      dict_get data (VStr "WMAgent_SubTaskName") = Some (VStr name) ->
      dict_get data (VStr "ScheddName") = Some (VStr schedd) ->
      List.length (split_on " " args) < 3 ->
      htc_entry entry = Raise IndexError).
Proof.
  intros Hs Hd. unfold htc_entry. rewrite Hs. simpl. rewrite Hd. simpl.
  repeat split.
  - intros a Ha Hns. rewrite Ha. destruct a; try discriminate; reflexivity.
  - intros args n Ha Hn Hns. rewrite Ha. simpl. rewrite Hn.
    destruct n; try discriminate; reflexivity.
  - intros args name sc Ha Hn Hsc Hns. rewrite Ha. simpl. rewrite Hn. simpl.
    rewrite Hsc. destruct sc; try discriminate; reflexivity.
  - intros args name schedd Ha Hn Hsc Hlen. rewrite Ha. simpl. rewrite Hn. simpl.
    rewrite Hsc. simpl.
    destruct (split_on " " args) as [|f0 [|f1 [|f2 rest]]]; simpl in *;
      try reflexivity. lia.
Qed.

(** X15.  The two origins meet: an HTC record with sub-task name [name],
    schedd name [schedd] and second and third fields [a1] and [a2] of
    [Args], and a WMA record without [EOSLogURL] (or with an empty one)
    with task [name], host [schedd] and fwjr_id [a1-a2], are given the
    same key, and the grouping of the merger puts them in one group. *)
Theorem origins_meet (htc wma : value) (hsource hdata wsource wdata meta : dict value)
  (name schedd args a0 a1 a2 : string) (rest : list string) :
  getitem htc "_source" = Ok (VDict hsource) ->
  dict_get hsource (VStr "data") = Some (VDict hdata) ->
  dict_get hdata (VStr "WMAgent_SubTaskName") = Some (VStr name) ->
  dict_get hdata (VStr "ScheddName") = Some (VStr schedd) ->
  dict_get hdata (VStr "Args") = Some (VStr args) ->
  split_on " " args = a0 :: a1 :: a2 :: rest ->
  getitem wma "_source" = Ok (VDict wsource) ->
  dict_get wsource (VStr "data") = Some (VDict wdata) ->
  dict_get wdata (VStr "EOSLogURL") = None \/
  dict_get wdata (VStr "EOSLogURL") = Some (VStr "") ->
  dict_get wdata (VStr "task") = Some (VStr name) ->
  dict_get wdata (VStr "meta_data") = Some (VDict meta) ->
  dict_get meta (VStr "host") = Some (VStr schedd) ->
  dict_get meta (VStr "fwjr_id") = Some (VStr (a1 ++ "-" ++ a2)) ->
  exists h w,
    add_log_htc [htc] = Ok [h] /\ add_log_wma [wma] = Ok [w] /\
    group_by_url ([h] ++ [w]) = Ok [(VStr (htc_key name schedd a1 a2), [h; w])].
Proof.
  intros H1 H2 H3 H4 H5 H6 W1 W2 W3 W4 W5 W6 W7.
  pose proof (htc_entry_intro _ _ _ _ _ _ _ _ _ _ H1 H2 H3 H4 H5 H6) as Hh.
  pose proof (wma_entry_intro _ _ _ _ _ _ _ W1 W2 W3 W4 W5 W6 W7) as Hw.
  assert (Ek : wma_key name schedd (a1 ++ "-" ++ a2) = htc_key name schedd a1 a2).
  { unfold wma_key, htc_key. now rewrite !append_assoc. }
  rewrite Ek in Hw.
  do 2 eexists. split; [ | split].
  - unfold add_log_htc. simpl. rewrite Hh. reflexivity.
  - unfold add_log_wma. simpl. rewrite Hw. reflexivity.
  - unfold group_by_url. simpl. rewrite !item_url_written. simpl.
    rewrite String.eqb_refl. reflexivity.
Qed.

(** X16.  Derivation can be run again: running it on a record whose
    [_source] is what a first run returned, returns the same. *)
Theorem derivation_idempotent :
  (forall entry entry' s,
      htc_entry entry = Ok s -> getitem entry' "_source" = Ok s ->
      htc_entry entry' = Ok s) /\
  (forall entry entry' s,
      wma_entry entry = Ok s -> getitem entry' "_source" = Ok s ->
      wma_entry entry' = Ok s).
Proof.
  split.
  - intros entry entry' s H Hs'. apply htc_entry_inv in H.
    destruct H as [source [data [name [schedd [args [a0 [a1 [a2 [rest H]]]]]]]]].
    destruct H as [_ [_ [Hn [Hsc [Ha [Hsp ->]]]]]].
    set (key := VStr (htc_key name schedd a1 a2)) in *.
    set (data' := dict_set data (VStr "EOSLogURL") key) in *.
    set (source' := dict_set source (VStr "data") (VDict data')) in *.
    assert (Hd' : dict_get source' (VStr "data") = Some (VDict data')).
    { unfold source'. apply dict_get_set_same. reflexivity. }
    assert (Hn' : dict_get data' (VStr "WMAgent_SubTaskName") = Some (VStr name)).
    { unfold data'. rewrite dict_get_set. exact Hn. }
    assert (Hsc' : dict_get data' (VStr "ScheddName") = Some (VStr schedd)).
    { unfold data'. rewrite dict_get_set. exact Hsc. }
    assert (Ha' : dict_get data' (VStr "Args") = Some (VStr args)).
    { unfold data'. rewrite dict_get_set. exact Ha. }
    rewrite (htc_entry_intro entry' source' data' name schedd args a0 a1 a2 rest
               Hs' Hd' Hn' Hsc' Ha' Hsp).
    fold key. unfold source', data'.
    rewrite (dict_set_set data (VStr "EOSLogURL") key key eq_refl).
    rewrite (dict_set_set source (VStr "data")); reflexivity.
  - intros entry entry' s H Hs'. apply wma_entry_inv in H.
    destruct H as [source [data [_ [Hd Hcase]]]].
    destruct Hcase as [[url [Hu [Hne ->]]] |
                       [task [meta [host [fwjr [_ [_ [_ [_ [_ ->]]]]]]]]]].
    + exact (wma_entry_kept entry' source data url Hs' Hd Hu Hne).
    + set (key := VStr (wma_key task host fwjr)) in *.
      set (data' := dict_set data (VStr "EOSLogURL") key) in *.
      set (source' := dict_set source (VStr "data") (VDict data')) in *.
      apply (wma_entry_kept entry' source' data' key Hs').
      * unfold source'. apply dict_get_set_same. reflexivity.
      * unfold data'. apply dict_get_set_same. reflexivity.
      * unfold key, wma_key, url_prefix. discriminate.
Qed.

(** X17.  Derivation changes [EOSLogURL] only: the record returned has the
    top-level fields of [_source], in their order, with the same values
    but for [data], and its [data] binds every field other than
    [EOSLogURL] as before. *)
Theorem derivation_changes_only_key (entry s : value) :
  htc_entry entry = Ok s \/ wma_entry entry = Ok s ->
  exists source source' data data',
    getitem entry "_source" = Ok (VDict source) /\
    s = VDict source' /\
    dict_keys source' = dict_keys source /\
    (forall k, py_eqb (VStr "data") k = false ->
               dict_get source' k = dict_get source k) /\
    dict_get source (VStr "data") = Some (VDict data) /\
    dict_get source' (VStr "data") = Some (VDict data') /\
    (forall f, py_eqb (VStr "EOSLogURL") f = false ->
               dict_get data' f = dict_get data f).
Proof.
  assert (G : forall source data key,
             dict_get source (VStr "data") = Some (VDict data) ->
             let data' := dict_set data (VStr "EOSLogURL") key in
             let source' := dict_set source (VStr "data") (VDict data') in
             dict_keys source' = dict_keys source /\
             (forall k, py_eqb (VStr "data") k = false ->
                        dict_get source' k = dict_get source k) /\
             dict_get source' (VStr "data") = Some (VDict data') /\
             (forall f, py_eqb (VStr "EOSLogURL") f = false ->
                        dict_get data' f = dict_get data f)).
  { intros source data key Hd data' source'. repeat split.
    - unfold source'. rewrite dict_keys_set, dict_get_has, Hd. reflexivity.
    - intros k Hk. unfold source'. now rewrite dict_get_set, Hk.
    - unfold source'. now rewrite dict_get_set_same.
    - intros f Hf. unfold data'. now rewrite dict_get_set, Hf. }
  intros [H|H].
  - apply htc_entry_inv in H.
    destruct H as [source [data [name [schedd [args [a0 [a1 [a2 [rest H]]]]]]]]].
    destruct H as [Hs [Hd [_ [_ [_ [_ ->]]]]]].
    destruct (G source data (VStr (htc_key name schedd a1 a2)) Hd)
      as [G1 [G2 [G3 G4]]].
    exists source,
      (dict_set source (VStr "data")
         (VDict (dict_set data (VStr "EOSLogURL")
                   (VStr (htc_key name schedd a1 a2))))),
      data, (dict_set data (VStr "EOSLogURL") (VStr (htc_key name schedd a1 a2))).
    repeat split; auto.
  - apply wma_entry_inv in H.
    destruct H as [source [data [Hs [Hd Hcase]]]].
    destruct Hcase as [[url [Hu [Hne ->]]] |
                       [task [meta [host [fwjr [_ [_ [_ [_ [_ ->]]]]]]]]]].
    + exists source, source, data, data. repeat split; auto.
    + destruct (G source data (VStr (wma_key task host fwjr)) Hd)
        as [G1 [G2 [G3 G4]]].
      exists source,
        (dict_set source (VStr "data")
           (VDict (dict_set data (VStr "EOSLogURL")
                     (VStr (wma_key task host fwjr))))),
        data, (dict_set data (VStr "EOSLogURL") (VStr (wma_key task host fwjr))).
      repeat split; auto.
Qed.

(** X18.  The merge of two mappings is one level deep: when the merged
    record holds a mapping under a field and the incoming value is a
    mapping, the result binds a key to what the incoming mapping binds it
    to (to the last binding, as it is, whatever was there), and a key the
    incoming mapping does not have to what was there. *)
Theorem mappings_merged_one_level (list_of_set : list value -> list value)
  (existing incoming : dict value) :
  merge_value list_of_set (VDict existing) (VDict incoming) =
    Ok (VDict (update_dict existing incoming)) /\
  forall k,
    dict_get (update_dict existing incoming) k =
    match dict_get (rev incoming) k with
    | Some v => Some v
    | None => dict_get existing k
    end.
Proof.
  split; [reflexivity | ].
  unfold update_dict. revert existing.
  induction incoming as [|[k1 v1] o IH]; intros e k; simpl; auto.
  rewrite IH, dict_get_set.
  assert (G : forall a : dict value,
             dict_get (a ++ [(k1, v1)]) k =
             match dict_get a k with
             | Some v => Some v
             | None => if py_eqb k1 k then Some v1 else None
             end).
  { induction a as [|[k0 v0] a IHa]; simpl; auto.
    destruct (py_eqb k0 k); auto. }
  rewrite G. destruct (dict_get (rev o) k); auto.
  now destruct (py_eqb k1 k).
Qed.

(** * Further properties: splitting [Args] *)

Lemma split_on_cons (sep : ascii) (s : string) :
  exists h t, split_on sep s = h :: t.
Proof.
  destruct s as [|c r]; simpl; eauto.
  destruct (Ascii.eqb c sep); eauto.
  destruct (split_on sep r); eauto.
Qed.

(** X19.  Splitting loses nothing: the fields of a string joined by the
    separator give the string back; there is one field more than there
    are separators in the string, and no field holds a separator. *)
Theorem split_on_join (sep : ascii) (s : string) :
  join sep (split_on sep s) = s /\
  List.length (split_on sep s) = 1 + count_char sep s /\
  Forall (fun f => count_char sep f = 0) (split_on sep s).
Proof.
  induction s as [|c r [IH1 [IH2 IH3]]]; simpl.
  - repeat split; auto.
  - destruct (split_on_cons sep r) as [h [t E]]. rewrite E in *.
    destruct (Ascii.eqb c sep) eqn:Ec.
    + apply Ascii.eqb_eq in Ec. subst c. repeat split.
      * change (join sep ("" :: h :: t)) with (String sep (join sep (h :: t))).
        now rewrite IH1.
      * simpl. simpl in IH2. lia.
      * constructor; auto.
    + repeat split.
      * rewrite <- IH1. destruct t; reflexivity.
      * simpl in *. lia.
      * inversion IH3; subst. constructor; auto. simpl. now rewrite Ec.
Qed.

(** * Further properties: the head of a query *)

Lemma string_forall_app (p : ascii -> bool) (a b : string) :
  string_forall p (a ++ b) = string_forall p a && string_forall p b.
Proof.
  induction a as [|c a IH]; simpl; auto. now rewrite IH, andb_assoc.
Qed.

Lemma escape_char_printable (c : ascii) :
  string_forall printable (escape_char c) = true.
Proof. destruct c as [[] [] [] [] [] [] [] []]; reflexivity. Qed.

Lemma escape_printable (s : string) : string_forall printable (escape s) = true.
Proof.
  induction s as [|c r IH]; simpl; auto.
  now rewrite string_forall_app, escape_char_printable, IH.
Qed.

Lemma unescape_escape (s rest : string) :
  unescape (escape s ++ String "034" rest) = Some (s, rest).
Proof.
  induction s as [|c r IH]; [reflexivity | ].
  simpl escape. rewrite append_assoc.
  destruct c as [[] [] [] [] [] [] [] []];
    match goal with
    | |- context [escape_char ?c] =>
        let e := eval vm_compute in (escape_char c) in
        change (escape_char c) with e
    end;
    cbn; rewrite IH; reflexivity.
Qed.

Lemma append_cancel (a x y : string) : (a ++ x)%string = (a ++ y)%string -> x = y.
Proof. induction a as [|c a IH]; simpl; intros H; auto. inversion H. auto. Qed.

(** X20.  The head of a query is one line of printable characters,
    whatever the index is: it holds no line feed, so that the line feed
    the script puts after it ends it; and two different indexes give two
    different heads. *)
Theorem query_head_one_line :
  (forall index,
      string_forall printable (create_query_head index) = true /\
      count_char "010" (create_query_head index) = 0) /\
  (forall index index',
      create_query_head index = create_query_head index' -> index = index').
Proof.
  split.
  - intros index.
    assert (H : string_forall printable (create_query_head index) = true).
    { unfold create_query_head, json_string, quoted.
      cbn [append string_forall].
      rewrite !string_forall_app, escape_printable. reflexivity. }
    split; auto.
    revert H. generalize (create_query_head index). clear.
    induction s as [|c r IH]; simpl; auto.
    intros H. apply andb_true_iff in H. destruct H as [Hc Hr].
    rewrite (IH Hr).
    destruct (Ascii.eqb c "010") eqn:E; auto.
    apply Ascii.eqb_eq in E. subst c. discriminate.
  - intros i j H. unfold create_query_head, json_string, quoted in H.
    simpl in H. inversion H as [H1]. clear H.
    rewrite !append_assoc in H1. simpl in H1.
    assert (E : unescape (escape i ++ String "034" "]}") =
                unescape (escape j ++ String "034" "]}")) by now rewrite H1.
    rewrite !unescape_escape in E. now inversion E.
Qed.

(** * Further properties: the run of the script *)

Lemma htc_entry_keyed (entry s : value) :
  htc_entry entry = Ok s -> keyless s = false.
Proof.
  intros H. apply htc_entry_inv in H.
  destruct H as [source [dat [name [schedd [args [a0 [a1 [a2 [rest H]]]]]]]]].
  destruct H as [_ [_ [_ [_ [_ [_ ->]]]]]]. apply keyless_written.
Qed.

Lemma wma_entry_keyed (entry s : value) :
  wma_entry entry = Ok s -> keyless s = false.
Proof.
  intros H. apply wma_entry_inv in H.
  destruct H as [source [dat [_ [Hd Hcase]]]].
  destruct Hcase as [[url [Hu [Hne ->]]] |
                     [task [meta [host [fwjr [_ [_ [_ [_ [_ ->]]]]]]]]]].
  - unfold keyless, getitem. rewrite Hd. now rewrite Hu.
  - apply keyless_written.
Qed.

Lemma Forall2_right {A B : Type} (R : A -> B -> Prop) (P : B -> Prop)
  (l : list A) (l' : list B) :
  (forall a b, R a b -> P b) -> Forall2 R l l' -> Forall P l'.
Proof. intros H. induction 1; constructor; eauto. Qed.

Section Run.

Variable list_of_set : list value -> list value.

Lemma single_in_input (l merged single : list value) :
  merge_dicts_by_url list_of_set l = Ok (merged, single) ->
  forall s, In s single -> In s l.
Proof.
  intros H. apply merge_dicts_by_url_ok in H.
  destruct H as [_ [_ [ds [_ [_ [-> _]]]]]].
  intros s Hin. apply in_flat_map in Hin.
  destruct Hin as [[k g] [Hin Hs']]. apply filter_In in Hin.
  destruct Hin as [Hin _]. apply groups_spec_in in Hin.
  destruct Hin as [_ ->]. simpl in Hs'. now apply members_in in Hs'.
Qed.

Lemma merge_size_bound (l merged single : list value) :
  merge_dicts_by_url list_of_set l = Ok (merged, single) ->
  2 * List.length merged + List.length single <= List.length l.
Proof.
  intros H. apply merge_dicts_by_url_ok in H.
  destruct H as [Hg [_ [ds [Hds [-> [-> Hs]]]]]].
  rewrite length_map, <- (Forall2_length Hds).
  rewrite (Permutation_length (groups_spec_perm _ Hg)). apply sizes_of_groups.
Qed.

(** X21.  Without data the script stops before it looks at a record: when
    the two responses have a [total] with a [value], the run ends by
    [exit] with the message of WMAgent if the value of the WMA response
    equals 0, and else with the message of HTCondor if that of the HTC
    response equals 0, whatever the [hits] are.  Both values are read
    first: a response without [total] raises [KeyError] even when the
    other has no data. *)
Theorem run_exits_without_data (wma htc wma_total htc_total nw nh : value) :
  getitem wma "total" = Ok wma_total ->
  getitem wma_total "value" = Ok nw ->
  (getitem htc "total" = Ok htc_total ->
   getitem htc_total "value" = Ok nh ->
   (py_eqb nw (VInt 0) = true ->
    run list_of_set wma htc = Ok (Exited "WMAgent: No data available!")) /\
   (py_eqb nw (VInt 0) = false -> py_eqb nh (VInt 0) = true ->
    run list_of_set wma htc = Ok (Exited "HTCondor: No data available!"))) /\
  (forall d, htc = VDict d -> dict_get d (VStr "total") = None ->
             run list_of_set wma htc = Raise (KeyError (VStr "total"))).
Proof.
  intros Hw Hnw. unfold run. rewrite Hw. cbn [bind]. rewrite Hnw. cbn [bind].
  split.
  - intros Hh Hnh. rewrite Hh. cbn [bind]. rewrite Hnh. cbn [bind]. split.
    + intros ->. reflexivity.
    + intros -> ->. reflexivity.
  - intros d -> Hd. unfold getitem at 1. now rewrite Hd.
Qed.

(** X22.  A run that ends after the merge has given the merger the HTC
    records before the WMA records, each with its key written; twice the
    number of merged records plus the number of unmatched ones is at most
    the number of hits of the two responses, and every unmatched record
    has an [EOSLogURL] field. *)
Theorem run_finished (wma htc : value) (merged_dicts single_entries : list value) :
  run list_of_set wma htc = Ok (Finished merged_dicts single_entries) ->
  exists wma_entries htc_entries wma_with_logs htc_with_logs,
    hits_of wma = Ok wma_entries /\
    hits_of htc = Ok htc_entries /\
    add_log_wma wma_entries = Ok wma_with_logs /\
    add_log_htc htc_entries = Ok htc_with_logs /\
    merge_dicts_by_url list_of_set (htc_with_logs ++ wma_with_logs) =
      Ok (merged_dicts, single_entries) /\
    2 * List.length merged_dicts + List.length single_entries <=
      List.length htc_entries + List.length wma_entries /\
    Forall (fun s => keyless s = false) single_entries.
Proof.
  unfold run, hits_of. intros H.
  step_bind H wt Ewt. step_bind H nw Enw. step_bind H ht Eht. step_bind H nh Enh.
  destruct (py_eqb nw (VInt 0)); [discriminate | ].
  destruct (py_eqb nh (VInt 0)); [discriminate | ].
  step_bind H wh Ewh. step_bind H we Ewe. step_bind H wl Ewl.
  step_bind H hh Ehh. step_bind H he Ehe. step_bind H hl Ehl.
  step_bind H out Eout. destruct out as [m s]. simpl in H.
  inversion H; subst; clear H.
  exists we, he, wl, hl. cbn [bind]. repeat split; auto.
  - pose proof (merge_size_bound _ _ _ Eout) as Hb.
    rewrite length_app in Hb.
    unfold add_log_wma in Ewl. apply add_log_wma_loop_ok in Ewl.
    destruct Ewl as [ws [Hws ->]].
    unfold add_log_htc in Ehl. apply add_log_htc_loop_ok in Ehl.
    destruct Ehl as [hs [Hhs ->]].
    simpl in Hb. rewrite (Forall2_length Hws), (Forall2_length Hhs). lia.
  - apply Forall_forall. intros x Hx.
    apply (single_in_input _ _ _ Eout) in Hx. apply in_app_or in Hx.
    unfold add_log_wma in Ewl. apply add_log_wma_loop_ok in Ewl.
    destruct Ewl as [ws [Hws ->]].
    unfold add_log_htc in Ehl. apply add_log_htc_loop_ok in Ehl.
    destruct Ehl as [hs [Hhs ->]]. simpl in Hx.
    pose proof (Forall2_right _ (fun s => keyless s = false) _ _ htc_entry_keyed Hhs) as Fh.
    pose proof (Forall2_right _ (fun s => keyless s = false) _ _ wma_entry_keyed Hws) as Fw.
    rewrite Forall_forall in Fh, Fw. destruct Hx; auto.
Qed.

End Run.

(** * The further properties on examples *)

Lemma fields_merged_independently_witness :
  merge_group first_occ [] [rec_a; rec_b] = Ok merged_ab /\
  forall field,
    fold_field first_occ None (values_of field (all_items [rec_a; rec_b])) =
      Ok (dict_get merged_ab field).
Proof.
  split; [reflexivity | ].
  apply (fields_merged_independently first_occ [rec_a; rec_b] merged_ab).
  reflexivity.
Defined.

Lemma last_value_wins_witness :
  merge_group first_occ [] [rec_a; rec_b] = Ok merged_ab /\
  values_of (VStr "EOSLogURL") (all_items [rec_a; rec_b]) = [VStr "u"] ++ [VStr "u"] /\
  forallb scalar_or_none [VStr "u"] = true /\
  dict_get merged_ab (VStr "EOSLogURL") = Some (VStr "u").
Proof.
  split; [reflexivity | ]. split; [reflexivity | ]. split; [reflexivity | ].
  apply (last_value_wins first_occ [rec_a; rec_b] merged_ab (VStr "EOSLogURL")
           [VStr "u"] (VStr "u")); reflexivity.
Defined.

Lemma sequence_kept_in_order_witness :
  merge_group first_occ [] [seq_n1; seq_n2] =
    Ok [(VStr "EOSLogURL", VStr "u"); (VStr "f", VList [VNone; VStr "a"; VStr "a"])] /\
  dict_get [(VStr "EOSLogURL", VStr "u"); (VStr "f", VList [VNone; VStr "a"; VStr "a"])]
    (VStr "f") =
  Some (VList ([VNone; VStr "a"] ++ flat_map flatten [VList [VStr "a"]])).
Proof.
  split; [reflexivity | ].
  apply (sequence_kept_in_order first_occ [seq_n1; seq_n2]); reflexivity.
Defined.

Lemma sequences_merged_to_set_witness :
  (forall l, forallb is_primitive l = true ->
             Permutation (first_occ l) (first_occ l)) /\
  merge_group first_occ [] [seq_r1 "u"; seq_r2 "u"] =
    Ok [(VStr "f", VList [VStr "a"; VStr "b"]); (VStr "EOSLogURL", VStr "u")] /\
  exists out,
    dict_get [(VStr "f", VList [VStr "a"; VStr "b"]); (VStr "EOSLogURL", VStr "u")]
      (VStr "f") = Some (VList out) /\
    Permutation out
      (first_occ ([VStr "a"] ++ flat_map flatten [VList [VStr "a"; VStr "b"]])).
Proof.
  assert (Hset : forall l, forallb is_primitive l = true ->
                           Permutation (first_occ l) (first_occ l))
    by (intros l _; apply Permutation_refl).
  split; [exact Hset | ]. split; [reflexivity | ].
  apply (sequences_merged_to_set first_occ Hset [seq_r1 "u"; seq_r2 "u"] _
           (VStr "f") [VStr "a"] (VList [VStr "a"; VStr "b"]) []); reflexivity.
Defined.

Lemma merged_fields_in_first_seen_order_witness :
  merge_group first_occ [] [rec_a; rec_b] = Ok merged_ab /\
  dict_keys merged_ab = first_occ (map fst (all_items [rec_a; rec_b])) /\
  distinct_keys (dict_keys merged_ab).
Proof.
  split; [reflexivity | ].
  apply (merged_fields_in_first_seen_order first_occ [rec_a; rec_b] merged_ab).
  reflexivity.
Defined.

Lemma distinct_keys_pass_through_witness :
  forallb groupable [rec_a; rec_c] = true /\
  distinct_keys (map url_of [rec_a; rec_c]) /\
  merge_dicts_by_url first_occ [rec_a; rec_c] = Ok ([], [rec_a; rec_c]).
Proof.
  assert (Hd : distinct_keys (map url_of [rec_a; rec_c])).
  { repeat constructor. }
  split; [reflexivity | ]. split; [exact Hd | ].
  apply (distinct_keys_pass_through first_occ [rec_a; rec_c]); [reflexivity | exact Hd].
Defined.

Lemma output_sizes_witness :
  merge_dicts_by_url first_occ batch = Ok (batch_merged, batch_single) /\
  2 * List.length batch_merged + List.length batch_single <= List.length batch /\
  List.length batch_merged + List.length batch_single =
    List.length (first_occ (map url_of batch)).
Proof.
  split; [reflexivity | ].
  apply (output_sizes first_occ batch batch_merged batch_single). reflexivity.
Defined.

Lemma batch_well_formed : Forall well_formed batch.
Proof. repeat constructor. Defined.

Lemma merged_record_keeps_key_witness :
  merge_dicts_by_url first_occ batch = Ok (batch_merged, batch_single) /\
  Forall well_formed batch /\
  let keys := first_occ (map url_of batch) in
  let group k := filter (fun r => py_eqb k (url_of r)) batch in
  Forall2 (fun k m => item_url m = Ok (url_of m) /\
                      hashable (url_of m) = true /\
                      py_eqb k (url_of m) = true)
          (filter (fun k => 1 <? List.length (group k)) keys) batch_merged.
Proof.
  split; [reflexivity | ]. split; [exact batch_well_formed | ].
  apply (merged_record_keeps_key first_occ batch batch_merged batch_single);
    [reflexivity | exact batch_well_formed].
Defined.

Lemma merge_stable_witness :
  merge_dicts_by_url first_occ batch = Ok (batch_merged, batch_single) /\
  Forall well_formed batch /\
  merge_dicts_by_url first_occ (batch_merged ++ batch_single) =
    Ok ([], batch_merged ++ batch_single).
Proof.
  split; [reflexivity | ]. split; [exact batch_well_formed | ].
  apply (merge_stable first_occ batch batch_merged batch_single);
    [reflexivity | exact batch_well_formed].
Defined.

Lemma htc_entry_returns_iff_witness :
  htc_entry (htc_example "x a1 a2 x") =
    Ok (VDict (dict_set (htc_source "x a1 a2 x") (VStr "data")
                 (VDict (dict_set (htc_data "x a1 a2 x") (VStr "EOSLogURL")
                           (VStr (htc_key "/Task1" "sched1" "a1" "a2")))))).
Proof.
  apply (proj2 (htc_entry_returns_iff (htc_example "x a1 a2 x") _)).
  exists (htc_source "x a1 a2 x"), (htc_data "x a1 a2 x"),
    "/Task1", "sched1", "x a1 a2 x", "x", "a1", "a2", ["x"].
  repeat split.
Defined.

Lemma wma_entry_returns_iff_witness :
  wma_entry wma_example =
    Ok (VDict (dict_set wma_source (VStr "data")
                 (VDict (dict_set wma_data (VStr "EOSLogURL")
                           (VStr (wma_key "/Task1" "sched1" "a1-a2")))))).
Proof.
  apply (proj2 (wma_entry_returns_iff wma_example _)).
  exists wma_source, wma_data. split; [reflexivity | ]. split; [reflexivity | ].
  right. exists "/Task1", wma_meta, "sched1", "a1-a2".
  split; [left; reflexivity | ]. repeat split.
Defined.

Lemma htc_records_keyed_witness :
  exists result,
    add_log_htc [htc_example "x a1 a2 x"; htc_example "y b1 b2"] = Ok result /\
    List.length result = 2 /\
    Forall (fun s => keyless s = false /\
                     exists middle,
                       item_url s = Ok (VStr (url_prefix ++ middle ++ url_suffix)))
           result.
Proof.
  eexists. split; [reflexivity | ].
  apply (htc_records_keyed [htc_example "x a1 a2 x"; htc_example "y b1 b2"]).
  reflexivity.
Defined.

Lemma wma_records_keyed_witness :
  exists result,
    add_log_wma [wma_example; wma_with_url] = Ok result /\
    List.length result = 2 /\
    Forall (fun s => keyless s = false /\
                     exists url, item_url s = Ok url /\ url <> VStr "")
           result.
Proof.
  eexists. split; [reflexivity | ].
  apply (wma_records_keyed [wma_example; wma_with_url]).
  reflexivity.
Defined.

Lemma htc_entry_raises_witness :
  htc_entry htc_short = Raise IndexError.
Proof.
  destruct (htc_entry_raises htc_short (htc_source "x a1") (htc_data "x a1")
              eq_refl eq_refl) as [_ [_ [_ H]]].
  apply (H "x a1" "/Task1" "sched1"); try reflexivity.
  simpl. lia.
Defined.

Lemma origins_meet_witness :
  exists h w,
    add_log_htc [htc_example "x a1 a2 x"] = Ok [h] /\
    add_log_wma [wma_example] = Ok [w] /\
    group_by_url ([h] ++ [w]) =
      Ok [(VStr (htc_key "/Task1" "sched1" "a1" "a2"), [h; w])].
Proof.
  apply (origins_meet (htc_example "x a1 a2 x") wma_example
           (htc_source "x a1 a2 x") (htc_data "x a1 a2 x")
           wma_source wma_data wma_meta
           "/Task1" "sched1" "x a1 a2 x" "x" "a1" "a2" ["x"]);
    try reflexivity.
  left. reflexivity.
Defined.

Lemma derivation_idempotent_witness :
  exists h w,
    htc_entry (htc_example "x a1 a2 x") = Ok h /\
    htc_entry (VDict [(VStr "_source", h)]) = Ok h /\
    wma_entry wma_example = Ok w /\
    wma_entry (VDict [(VStr "_source", w)]) = Ok w.
Proof.
  destruct derivation_idempotent as [H1 H2].
  do 2 eexists. split; [reflexivity | ]. split.
  - apply (H1 (htc_example "x a1 a2 x")); reflexivity.
  - split; [reflexivity | ].
    apply (H2 wma_example); reflexivity.
Defined.

Lemma derivation_changes_only_key_witness :
  exists s source source' data data',
    htc_entry (htc_example "x a1 a2 x") = Ok s /\
    getitem (htc_example "x a1 a2 x") "_source" = Ok (VDict source) /\
    s = VDict source' /\
    dict_keys source' = dict_keys source /\
    (forall k, py_eqb (VStr "data") k = false ->
               dict_get source' k = dict_get source k) /\
    dict_get source (VStr "data") = Some (VDict data) /\
    dict_get source' (VStr "data") = Some (VDict data') /\
    (forall f, py_eqb (VStr "EOSLogURL") f = false ->
               dict_get data' f = dict_get data f).
Proof.
  eexists.
  assert (H : htc_entry (htc_example "x a1 a2 x") = Ok _) by reflexivity.
  destruct (derivation_changes_only_key _ _ (or_introl H))
    as [source [source' [data [data' G]]]].
  exists source, source', data, data'. split; [exact H | exact G].
Defined.

Lemma query_head_one_line_witness :
  string_forall printable (create_query_head "monit_prod_*") = true /\
  count_char "010" (create_query_head "monit_prod_*") = 0 /\
  "monit_prod_*" = "monit_prod_*".
Proof.
  destruct query_head_one_line as [H1 H2].
  destruct (H1 "monit_prod_*") as [Ha Hb].
  split; [exact Ha | ]. split; [exact Hb | ].
  apply H2. reflexivity.
Defined.

Lemma run_exits_without_data_witness :
  run first_occ empty_response htc_response =
    Ok (Exited "WMAgent: No data available!") /\
  run first_occ wma_response empty_response =
    Ok (Exited "HTCondor: No data available!") /\
  run first_occ empty_response (VDict []) = Raise (KeyError (VStr "total")).
Proof.
  split; [ | split].
  - destruct (run_exits_without_data first_occ empty_response htc_response
                (VDict [(VStr "value", VInt 0)]) (VDict [(VStr "value", VInt 1)])
                (VInt 0) (VInt 1) eq_refl eq_refl) as [H _].
    destruct (H eq_refl eq_refl) as [H1 _]. apply H1. reflexivity.
  - destruct (run_exits_without_data first_occ wma_response empty_response
                (VDict [(VStr "value", VInt 1)]) (VDict [(VStr "value", VInt 0)])
                (VInt 1) (VInt 0) eq_refl eq_refl) as [H _].
    destruct (H eq_refl eq_refl) as [_ H2]. apply H2; reflexivity.
  - destruct (run_exits_without_data first_occ empty_response (VDict [])
                (VDict [(VStr "value", VInt 0)]) VNone
                (VInt 0) VNone eq_refl eq_refl) as [_ H].
    apply (H []); reflexivity.
Defined.

Lemma run_finished_witness :
  exists merged_dicts single_entries,
    run first_occ wma_response htc_response =
      Ok (Finished merged_dicts single_entries) /\
    exists wma_entries htc_entries wma_with_logs htc_with_logs,
      hits_of wma_response = Ok wma_entries /\
      hits_of htc_response = Ok htc_entries /\
      add_log_wma wma_entries = Ok wma_with_logs /\
      add_log_htc htc_entries = Ok htc_with_logs /\
      merge_dicts_by_url first_occ (htc_with_logs ++ wma_with_logs) =
        Ok (merged_dicts, single_entries) /\
      2 * List.length merged_dicts + List.length single_entries <=
        List.length htc_entries + List.length wma_entries /\
      Forall (fun s => keyless s = false) single_entries.
Proof.
  do 2 eexists.
  assert (H : run first_occ wma_response htc_response = Ok (Finished _ _))
    by reflexivity.
  split; [exact H | ].
  apply (run_finished first_occ _ _ _ _ H).
Defined.
